(** * raft3d: the replicated state machine, its store and the leader forwarding

    A shallow embedding of the state machine and the key-value store of
    package [raft], of [raft/transport.go] and of [api/models], followed by
    the properties of the specification that these functions decide.

    Conventions.
    - Go's [int] is the 64-bit signed integer of the supported platforms; it
      is a [Z] together with the wrap-around of the machine operation.
    - Go strings are byte strings: [string] (a list of [ascii]).
    - A Go [error] is the value that the code builds: the message of
      [fmt.Errorf]/[errors.New] in the state machine and the transport, the
      [os] error values in the store.  [None] stands for [nil].
    - A [map[string]*T] is a [gmap string T].  Every pointer stored in one of
      the maps comes from its own [json.Unmarshal], so no two entries alias
      and an assignment through a stored pointer is the update of that entry. *)

From Stdlib Require Import ZArith String Ascii DecimalString DecimalZ DecimalPos Sorted.
From Stdlib Require OrderedTypeEx.
From stdpp Require Import gmap strings list fin_maps.

Local Open Scope string_scope.
Local Open Scope Z_scope.

(** ** Machine integers and formatting *)

Module Go.

Definition min_int : Z := - 2 ^ 63.
Definition max_int : Z := 2 ^ 63 - 1.

Definition in_range (z : Z) : Prop := min_int <= z <= max_int.

(** Two's complement reduction of a mathematical integer to [int]. *)
Definition wrap (z : Z) : Z := (z + 2 ^ 63) mod 2 ^ 64 - 2 ^ 63.

(** [a - b] and [a + b] on [int]. *)
Definition sub (a b : Z) : Z := wrap (a - b).
Definition add (a b : Z) : Z := wrap (a + b).

(** The verb [%d] of [fmt]: decimal digits, a leading [-] when negative. *)
Definition itoa (z : Z) : string := NilZero.string_of_int (Z.to_int z).

(** [s[n:]] and [s[:n]] for [0 <= n <= len(s)]. *)
Fixpoint drop_bytes (n : nat) (s : string) : string :=
  match n, s with
  | O, _ => s
  | S n', String _ r => drop_bytes n' r
  | S _, EmptyString => EmptyString
  end.

Fixpoint take_bytes (n : nat) (s : string) : string :=
  match n, s with
  | O, _ => EmptyString
  | S n', String c r => String c (take_bytes n' r)
  | S _, EmptyString => EmptyString
  end.

Definition is_digit (c : ascii) : bool :=
  let n := nat_of_ascii c in (48 <=? n)%nat && (n <=? 57)%nat.

Definition byte_at (s : string) (i : nat) : nat :=
  match String.get i s with
  | Some c => nat_of_ascii c
  | None => 256%nat
  end.

(** The width in bytes of the blank that starts [s], [0] when [s] does not
    start with one.  These are the runes that [fmt]'s scanner skips,
    U+0009 and U+000B to U+000D, U+0020, U+0085, U+00A0, U+1680, U+2000 to
    U+200A, U+2028, U+2029, U+202F, U+205F and U+3000 in their UTF-8
    encoding; a newline is not one of them in the [Sscanf] family, it ends
    the scan with an error. *)
Definition blank_width (s : string) : nat :=
  let b0 := byte_at s 0 in
  let b1 := byte_at s 1 in
  let b2 := byte_at s 2 in
  (if (b0 =? 9) || (b0 =? 11) || (b0 =? 12) || (b0 =? 13) || (b0 =? 32) then 1
   else if (b0 =? 194) && ((b1 =? 133) || (b1 =? 160)) then 2
   else if (b0 =? 225) && (b1 =? 154) && (b2 =? 128) then 3
   else if (b0 =? 226) && (b1 =? 128)
           && (((128 <=? b2) && (b2 <=? 138)) || (b2 =? 168) || (b2 =? 169) || (b2 =? 175))
        then 3
   else if (b0 =? 226) && (b1 =? 129) && (b2 =? 159) then 3
   else if (b0 =? 227) && (b1 =? 128) && (b2 =? 128) then 3
   else 0)%nat.

Fixpoint skip_blanks_fuel (fuel : nat) (s : string) : string :=
  match fuel with
  | O => s
  | S fuel' =>
      match blank_width s with
      | O => s
      | w => skip_blanks_fuel fuel' (drop_bytes w s)
      end
  end.

(** Every round removes at least one byte, so the length is fuel enough. *)
Definition skip_blanks (s : string) : string :=
  skip_blanks_fuel (String.length s) s.

(** The longest prefix of decimal digits. *)
Fixpoint digits_prefix (s : string) : string :=
  match s with
  | String c r => if is_digit c then String c (digits_prefix r) else EmptyString
  | EmptyString => EmptyString
  end.

(** An optional sign in front of the digits. *)
Definition split_sign (s : string) : bool * string :=
  match s with
  | String "-" r => (true, r)
  | String "+" r => (false, r)
  | _ => (false, s)
  end.

(** [fmt.Sscanf(s, "%d", &n)]: blanks are skipped, an optional sign is
    taken, then the longest run of digits, which must not be empty; what
    follows the number is left unread.  [None] is a scan error. *)
Definition scan_int (s : string) : option Z :=
  let '(neg, s2) := split_sign (skip_blanks s) in
  match digits_prefix s2 with
  | EmptyString => None
  | String c r =>
      match NilZero.uint_of_string (String c r) with
      | Some u => Some (if neg then - Z.of_uint u else Z.of_uint u)
      | None => None
      end
  end.

(** The same scan into an [int64]: a number out of range is an error. *)
Definition scan_int64 (s : string) : option Z :=
  match scan_int s with
  | Some z => if (min_int <=? z) && (z <=? max_int) then Some z else None
  | None => None
  end.

End Go.

(** ** api/models *)

Module Models.

(** Modelled from the spec: the declaration of [models.Printer] is not
    among the sources; a device has an id, a manufacturer and a model
    label, the fields that the README's requests carry. *)
Record Printer := {
  Printer_ID : string;
  Company : string;
  Model : string
}.

Record Filament := {
  Filament_ID : string;
  Filament_Type : string;
  Color : string;
  TotalWeightInGrams : Z;
  RemainingWeightInGrams : Z
}.

Record PrintJob := {
  ID : string;
  PrinterID : string;
  FilamentID : string;
  Filepath : string;
  PrintWeightInGrams : Z;
  Status : string
}.

Definition AddPrinter : string := "ADD_PRINTER".
Definition AddFilament : string := "ADD_FILAMENT".
Definition AddPrintJob : string := "ADD_PRINT_JOB".
Definition UpdatePrintJob : string := "UPDATE_PRINT_JOB".

(** [Command]; a [nil] pointer field is [None]. *)
Record Command := {
  Cmd_Type : string;
  Cmd_Printer : option Printer;
  Cmd_Filament : option Filament;
  Cmd_PrintJob : option PrintJob;
  JobID : string;
  NewStatus : string
}.

(** [ValidateStatusChange]: [None] is [nil]. *)
Definition ValidateStatusChange (currentStatus newStatus : string) : option string :=
  if String.eqb currentStatus "Queued" then
    if negb (String.eqb newStatus "Running") && negb (String.eqb newStatus "Canceled")
    then Some "a job can only transition from Queued to Running or Canceled"
    else None
  else if String.eqb currentStatus "Running" then
    if negb (String.eqb newStatus "Done") && negb (String.eqb newStatus "Canceled")
    then Some "a job can only transition from Running to Done or Canceled"
    else None
  else Some "invalid status transition".

Definition IsValidPrintJobStatus (status : string) : bool :=
  existsb (String.eqb status) ["Queued"; "Running"; "Done"; "Canceled"].

Definition set_Status (j : PrintJob) (s : string) : PrintJob :=
  {| ID := ID j; PrinterID := PrinterID j; FilamentID := FilamentID j;
     Filepath := Filepath j; PrintWeightInGrams := PrintWeightInGrams j;
     Status := s |}.

Definition set_RemainingWeightInGrams (fl : Filament) (w : Z) : Filament :=
  {| Filament_ID := Filament_ID fl; Filament_Type := Filament_Type fl;
     Color := Color fl; TotalWeightInGrams := TotalWeightInGrams fl;
     RemainingWeightInGrams := w |}.

End Models.

(** ** encoding/json, as far as the snapshot uses it *)

Module Json.

#[local] Unset Elimination Schemes.

Inductive Value :=
| Null
| Bool (b : bool)
| Number (n : Z)
| Str (s : string)
| Array (elements : list Value)
| Object (members : list (string * Value)).

#[local] Set Elimination Schemes.

(** A struct field as the package sees it through reflection: its Go name
    (no field of [fsmSnapshot] carries a tag), how its value is written
    and how a value read for it is stored into the struct. *)
Record Field (S : Type) := {
  name : string;
  encode : S -> Value;
  decode : Value -> S -> option S
}.
Arguments name {S}.
Arguments encode {S}.
Arguments decode {S}.

(** A field is exported when its name starts with an upper case letter
    (the names at hand are ASCII); the package reads and writes exported
    fields only. *)
Definition exported (field : string) : bool :=
  match field with
  | String c _ => let n := nat_of_ascii c in (65 <=? n)%nat && (n <=? 90)%nat
  | EmptyString => false
  end.

Definition lower (c : ascii) : ascii :=
  let n := nat_of_ascii c in
  if (65 <=? n)%nat && (n <=? 90)%nat then ascii_of_nat (n + 32) else c.

Fixpoint fold_case (s : string) : string :=
  match s with
  | String c r => String (lower c) (fold_case r)
  | EmptyString => EmptyString
  end.

Definition visible {S} (fields : list (Field S)) : list (Field S) :=
  List.filter (fun fd => exported (name fd)) fields.

(** [json.Marshal] of a struct: one member per exported field. *)
Definition Marshal {S} (fields : list (Field S)) (s : S) : Value :=
  Object (List.map (fun fd => (name fd, encode fd s)) (visible fields)).

(** The field that receives the member [key]: an exact match of the name
    is preferred to a match up to case. *)
Definition field_for {S} (fields : list (Field S)) (key : string) : option (Field S) :=
  match List.find (fun fd => String.eqb (name fd) key) (visible fields) with
  | Some fd => Some fd
  | None =>
      List.find (fun fd => String.eqb (fold_case (name fd)) (fold_case key)) (visible fields)
  end.

Definition store_member {S} (fields : list (Field S)) (acc : option S) (member : string * Value)
  : option S :=
  match acc with
  | Some s =>
      match field_for fields (fst member) with
      | Some fd => decode fd (snd member) s
      | None => Some s
      end
  | None => None
  end.

(** [json.Unmarshal] of a document into the struct [s]: members without a
    receiving field are skipped, [null] leaves [s] as it is, any other
    document is a type error ([None]). *)
Definition Unmarshal {S} (fields : list (Field S)) (doc : Value) (s : S) : option S :=
  match doc with
  | Object members => foldl (store_member fields) (Some s) members
  | Null => Some s
  | _ => None
  end.

End Json.

(** ** raft/fsm.go: the state machine *)

Module FSM.
Import Models.

Record FSM := {
  printers : gmap string Printer;
  filaments : gmap string Filament;
  printJobs : gmap string PrintJob
}.

Definition NewFSM : FSM :=
  {| printers := ∅; filaments := ∅; printJobs := ∅ |}.

Definition set_printers (f : FSM) (m : gmap string Printer) : FSM :=
  {| printers := m; filaments := filaments f; printJobs := printJobs f |}.
Definition set_filaments (f : FSM) (m : gmap string Filament) : FSM :=
  {| printers := printers f; filaments := m; printJobs := printJobs f |}.
Definition set_printJobs (f : FSM) (m : gmap string PrintJob) : FSM :=
  {| printers := printers f; filaments := filaments f; printJobs := m |}.

(** The bytes of a log entry, as [json.Unmarshal] reads them into a
    [Command]: a decoding error or the decoded command. *)
Inductive LogData :=
| BadJSON (err : string)
| CommandJSON (cmd : Command).

(** One round of the loop over [f.printJobs] in the [AddPrintJob] case. *)
Definition reserve (filamentID : string) (_ : string) (job : PrintJob) (availableWeight : Z) : Z :=
  if String.eqb (FilamentID job) filamentID
     && (String.eqb (Status job) "Queued" || String.eqb (Status job) "Running")
  then Go.sub availableWeight (PrintWeightInGrams job)
  else availableWeight.

(** The whole loop, started at the filament's remaining weight. *)
Definition availableWeight (f : FSM) (filamentID : string) (remaining : Z) : Z :=
  map_fold (reserve filamentID) remaining (printJobs f).

Definition not_enough_filament (available required : Z) : string :=
  "not enough filament remaining. Available: " ++ Go.itoa available
    ++ " g, Required: " ++ Go.itoa required ++ " g".

(** [Apply]: the state after the call and the value returned. *)
Definition Apply (f : FSM) (log : LogData) : FSM * option string :=
  match log with
  | BadJSON err => (f, Some ("failed to unmarshal command: " ++ err))
  | CommandJSON cmd =>
    if String.eqb (Cmd_Type cmd) AddPrinter then
      match Cmd_Printer cmd with
      | None => (f, Some "printer is nil")
      | Some p => (set_printers f (<[Printer_ID p := p]> (printers f)), None)
      end
    else if String.eqb (Cmd_Type cmd) AddFilament then
      match Cmd_Filament cmd with
      | None => (f, Some "filament is nil")
      | Some fl => (set_filaments f (<[Filament_ID fl := fl]> (filaments f)), None)
      end
    else if String.eqb (Cmd_Type cmd) AddPrintJob then
      match Cmd_PrintJob cmd with
      | None => (f, Some "print job is nil")
      | Some pj =>
        match printers f !! PrinterID pj with
        | None => (f, Some ("printer with ID " ++ PrinterID pj ++ " does not exist"))
        | Some _ =>
          match filaments f !! FilamentID pj with
          | None => (f, Some ("filament with ID " ++ FilamentID pj ++ " does not exist"))
          | Some filament =>
            let available :=
              availableWeight f (FilamentID pj) (RemainingWeightInGrams filament) in
            if available <? PrintWeightInGrams pj then
              (f, Some (not_enough_filament available (PrintWeightInGrams pj)))
            else
              (set_printJobs f (<[ID pj := set_Status pj "Queued"]> (printJobs f)), None)
          end
        end
      end
    else if String.eqb (Cmd_Type cmd) UpdatePrintJob then
      match printJobs f !! JobID cmd with
      | None => (f, Some ("print job with ID " ++ JobID cmd ++ " does not exist"))
      | Some job =>
        match ValidateStatusChange (Status job) (NewStatus cmd) with
        | Some err => (f, Some err)
        | None =>
          let oldStatus := Status job in
          let job' := set_Status job (NewStatus cmd) in
          let f1 := set_printJobs f (<[JobID cmd := job']> (printJobs f)) in
          if String.eqb oldStatus "Running" && String.eqb (NewStatus cmd) "Done" then
            match filaments f1 !! FilamentID job' with
            | None =>
                (f1, Some ("filament with ID " ++ FilamentID job' ++ " does not exist"))
            | Some filament =>
                let w := Go.sub (RemainingWeightInGrams filament) (PrintWeightInGrams job') in
                let w' := if w <? 0 then 0 else w in
                (set_filaments f1
                   (<[FilamentID job' := set_RemainingWeightInGrams filament w']> (filaments f1)),
                 None)
            end
          else (f1, None)
        end
      end
    else (f, Some ("unknown command type: " ++ Cmd_Type cmd))
  end.

(** The committed entries applied in log order. *)
Definition ApplyAll (f : FSM) (logs : list LogData) : FSM :=
  foldl (fun st log => fst (Apply st log)) f logs.

(** *** Snapshot, Persist and Restore *)

Record fsmSnapshot := {
  snapshot_printers : gmap string Printer;
  snapshot_filaments : gmap string Filament;
  snapshot_printJobs : gmap string PrintJob
}.

(** [Snapshot]: the three maps copied entry by entry. *)
Definition Snapshot (f : FSM) : fsmSnapshot :=
  {| snapshot_printers := printers f;
     snapshot_filaments := filaments f;
     snapshot_printJobs := printJobs f |}.

(** The sink that the consensus library hands to [Persist]: the documents
    written so far and how the sink was left.  [write_error] and
    [close_error] are what its [Write] and [Close] answer. *)
Record SnapshotSink := {
  written : list Json.Value;
  write_error : option string;
  close_error : option string;
  closed : bool;
  cancelled : bool
}.

Definition open_sink : SnapshotSink :=
  {| written := []; write_error := None; close_error := None;
     closed := false; cancelled := false |}.

(** What [Restore] finds in its reader: bytes that are not a JSON
    document, or the first document of the stream. *)
Inductive Stream :=
| NotJSON (err : string)
| Document (doc : Json.Value).

Section Codec.

(** How [encoding/json] writes and reads the three map types.  They
    are left open: the results below hold for every choice. *)
Variable encode_printers : gmap string Printer -> Json.Value.
Variable decode_printers : Json.Value -> option (gmap string Printer).
Variable encode_filaments : gmap string Filament -> Json.Value.
Variable decode_filaments : Json.Value -> option (gmap string Filament).
Variable encode_printJobs : gmap string PrintJob -> Json.Value.
Variable decode_printJobs : Json.Value -> option (gmap string PrintJob).

(** The fields of [fsmSnapshot], under the names of the declaration. *)
Definition fsmSnapshot_fields : list (Json.Field fsmSnapshot) :=
  [ {| Json.name := "printers";
       Json.encode := fun s => encode_printers (snapshot_printers s);
       Json.decode := fun v s =>
         m ← decode_printers v;
         Some {| snapshot_printers := m;
                 snapshot_filaments := snapshot_filaments s;
                 snapshot_printJobs := snapshot_printJobs s |} |};
    {| Json.name := "filaments";
       Json.encode := fun s => encode_filaments (snapshot_filaments s);
       Json.decode := fun v s =>
         m ← decode_filaments v;
         Some {| snapshot_printers := snapshot_printers s;
                 snapshot_filaments := m;
                 snapshot_printJobs := snapshot_printJobs s |} |};
    {| Json.name := "printJobs";
       Json.encode := fun s => encode_printJobs (snapshot_printJobs s);
       Json.decode := fun v s =>
         m ← decode_printJobs v;
         Some {| snapshot_printers := snapshot_printers s;
                 snapshot_filaments := snapshot_filaments s;
                 snapshot_printJobs := m |} |} ].

(** [Persist]: the sink afterwards and the error returned. *)
Definition Persist (s : fsmSnapshot) (sink : SnapshotSink) : SnapshotSink * option string :=
  let cancel (k : SnapshotSink) :=
    {| written := written k; write_error := write_error k;
       close_error := close_error k; closed := closed k; cancelled := true |} in
  match write_error sink with
  | Some err => (cancel sink, Some err)
  | None =>
      let sink1 :=
        {| written := written sink ++ [Json.Marshal fsmSnapshot_fields s];
           write_error := write_error sink; close_error := close_error sink;
           closed := true; cancelled := cancelled sink |} in
      match close_error sink with
      | Some err => (cancel sink1, Some err)
      | None => (sink1, None)
      end
  end.

(** The zero value of [fsmSnapshot]: three [nil] maps.  A [nil] map has
    no entry, as the empty map. *)
Definition zero_fsmSnapshot : fsmSnapshot :=
  {| snapshot_printers := ∅; snapshot_filaments := ∅; snapshot_printJobs := ∅ |}.

(** [Restore]: the state afterwards and the error returned. *)
Definition Restore (f : FSM) (rc : Stream) : FSM * option string :=
  match rc with
  | NotJSON err => (f, Some err)
  | Document doc =>
      match Json.Unmarshal fsmSnapshot_fields doc zero_fsmSnapshot with
      | None => (f, Some "json: cannot unmarshal into Go value of type raft.fsmSnapshot")
      | Some snapshot =>
          ({| printers := snapshot_printers snapshot;
              filaments := snapshot_filaments snapshot;
              printJobs := snapshot_printJobs snapshot |}, None)
      end
  end.

(** What a reader of the persisted snapshot finds: the document that
    [Persist] wrote. *)
Definition reopen (sink : SnapshotSink) : Stream :=
  match written sink with
  | doc :: _ => Document doc
  | [] => NotJSON "EOF"
  end.

End Codec.

End FSM.

(** ** The words of the specification about the state machine *)

Module Spec.
Import Models FSM.

(** A stored job counts against [filamentID] while it is queued or running. *)
Definition active (filamentID : string) (job : PrintJob) : bool :=
  String.eqb (FilamentID job) filamentID
  && (String.eqb (Status job) "Queued" || String.eqb (Status job) "Running").

(** The sum, over the integers, of the requested weights of the stored jobs
    that count against [filamentID]. *)
Definition reserved (jobs : gmap string PrintJob) (filamentID : string) : Z :=
  map_fold (fun _ job sum => if active filamentID job then sum + PrintWeightInGrams job else sum)
           0 jobs.

(** The four transitions of a job's status. *)
Definition legal_transition (current new : string) : Prop :=
  (current = "Queued" /\ new = "Running") \/ (current = "Queued" /\ new = "Canceled")
  \/ (current = "Running" /\ new = "Done") \/ (current = "Running" /\ new = "Canceled").

(** The errors with which the validator refuses a transition. *)
Definition illegal_transition_error (err : string) : Prop :=
  err = "a job can only transition from Queued to Running or Canceled"
  \/ err = "a job can only transition from Running to Done or Canceled"
  \/ err = "invalid status transition".

(** Every stored job names a stored filament. *)
Definition filaments_exist (f : FSM) : Prop :=
  forall (id : string) (job : PrintJob),
    printJobs f !! id = Some job -> is_Some (filaments f !! FilamentID job).

(** Every stored job has one of the four statuses. *)
Definition statuses_valid (f : FSM) : Prop :=
  forall (id : string) (job : PrintJob),
    printJobs f !! id = Some job -> IsValidPrintJobStatus (Status job) = true.

End Spec.

(** ** The commands of the service layer and the README's records *)

Module Scenario.
Import Models FSM.

Definition add_printer (p : Printer) : LogData :=
  CommandJSON {| Cmd_Type := AddPrinter; Cmd_Printer := Some p; Cmd_Filament := None;
                 Cmd_PrintJob := None; JobID := ""; NewStatus := "" |}.

Definition add_filament (fl : Filament) : LogData :=
  CommandJSON {| Cmd_Type := AddFilament; Cmd_Printer := None; Cmd_Filament := Some fl;
                 Cmd_PrintJob := None; JobID := ""; NewStatus := "" |}.

Definition add_print_job_command (pj : PrintJob) : Command :=
  {| Cmd_Type := AddPrintJob; Cmd_Printer := None; Cmd_Filament := None;
     Cmd_PrintJob := Some pj; JobID := ""; NewStatus := "" |}.

Definition update_print_job_command (id status : string) : Command :=
  {| Cmd_Type := UpdatePrintJob; Cmd_Printer := None; Cmd_Filament := None;
     Cmd_PrintJob := None; JobID := id; NewStatus := status |}.

Definition add_print_job (pj : PrintJob) : LogData := CommandJSON (add_print_job_command pj).
Definition update_print_job (id status : string) : LogData :=
  CommandJSON (update_print_job_command id status).

Definition ender : Printer :=
  {| Printer_ID := "p1"; Company := "Creality"; Model := "Ender 3" |}.

Definition spool (remaining : Z) : Filament :=
  {| Filament_ID := "f1"; Filament_Type := "PLA"; Color := "red";
     TotalWeightInGrams := 1000; RemainingWeightInGrams := remaining |}.

Definition job (id : string) (weight : Z) (status : string) : PrintJob :=
  {| ID := id; PrinterID := "p1"; FilamentID := "f1"; Filepath := "prints/model.gcode";
     PrintWeightInGrams := weight; Status := status |}.

(** A job whose filament is not stored. *)
Definition orphan (status : string) : PrintJob :=
  {| ID := "j1"; PrinterID := "p1"; FilamentID := "f9"; Filepath := "prints/model.gcode";
     PrintWeightInGrams := 100; Status := status |}.

(** The specification's accounting example: a spool of 1000 g and a job of
    400 g, queued and then running. *)
Definition queued_400 : FSM :=
  ApplyAll NewFSM [add_printer ender; add_filament (spool 1000); add_print_job (job "j1" 400 "")].

Definition running_400 : FSM :=
  fst (Apply queued_400 (update_print_job "j1" "Running")).

(** A spool entered with the largest weight an [int] holds, and a job
    entered with a negative weight. *)
Definition full_spool : FSM :=
  ApplyAll NewFSM [add_printer ender; add_filament (spool Go.max_int);
                   add_print_job (job "j1" (-1) "")].

Definition full_spool_running : FSM :=
  fst (Apply full_spool (update_print_job "j1" "Running")).

(** A state in which a running job names a filament that is not stored. *)
Definition orphaned : FSM :=
  {| printers := {["p1" := ender]}; filaments := ∅;
     printJobs := {["j1" := orphan "Running"]} |}.

(** A state with one printer. *)
Definition one_printer : FSM := ApplyAll NewFSM [add_printer ender].

(** The accounting example as a log: the job of 400 g runs and is done,
    a job of 700 g is asked for in between, one of 600 g afterwards. *)
Definition accounting_log : list LogData :=
  [add_printer ender; add_filament (spool 1000); add_print_job (job "j1" 400 "");
   update_print_job "j1" "Running"; add_print_job (job "j2" 700 "");
   update_print_job "j1" "Done"; add_print_job (job "j3" 600 "")].

End Scenario.

(** ** raft/transport.go: forwarding to the leader *)

Module Transport.

(** What the node answers to [Leader()] and [LeaderAddress()] during the
    call. *)
Record Node := {
  Leader : bool;
  LeaderAddress : string
}.

(** The request handed to the HTTP client.  [NewRequestWithContext] is
    called with a [nil] body and the body is then set to [http.NoBody]:
    the request carries no bytes whatever [body] the caller gave. *)
Record Request := {
  Method : string;
  URL : string;
  ContentType : option string;
  Body : string
}.

(** The response: [Read n] is what one [resp.Body.Read] leaves in a buffer
    of [n] bytes, and the error it returns. *)
Record Response := {
  StatusCode : Z;
  ContentLength : Z;
  Read : nat -> string * option string
}.

Inductive DoResult :=
| DoError (err : string)
| DoResponse (resp : Response).

(** The errors that the call returns.  It builds three of them itself:
    [no leader available]; [failed to parse leader port: ...] around the
    error of the scanner, kept here with the bytes that did not scan; and
    [received non-success response: ...] around the status code.  The
    others are errors of [net/http] that it passes on. *)
Inductive Error :=
| NoLeaderAvailable
| ParseLeaderPort (suffix : string)
| RequestError (err : string)
| ClientError (err : string)
| NonSuccess (status : Z)
| ReadError (err : string).

(** The course of one call: it returns without touching the network, it
    stops on a run-time panic, or it hands one request to the HTTP client
    and turns the client's answer into its result. *)
Inductive Outcome :=
| Return (respBody : option string) (err : option Error)
| Panic (reason : string)
| ClientDo (req : Request) (k : DoResult -> option string * option Error).

(** The part of the function that follows [client.Do]. *)
Definition receive (r : DoResult) : option string * option Error :=
  match r with
  | DoError err => (None, Some (ClientError err))
  | DoResponse resp =>
      if negb (StatusCode resp =? 200) && negb (StatusCode resp =? 201) then
        (None, Some (NonSuccess (StatusCode resp)))
      else if 0 <? ContentLength resp then
        let '(respBody, err) := Read resp (Z.to_nat (ContentLength resp)) in
        match err with
        | Some e => (None, Some (ReadError e))
        | None => (Some respBody, None)
        end
      else (None, None)
  end.

Definition httpPort : Z := 8000.
Definition raftPort : Z := 7000.

Definition leaderHTTPAddr (leaderPort : Z) : string :=
  "http://localhost:" ++ Go.itoa (Go.add httpPort (Go.sub leaderPort raftPort)).

(** [ForwardToLeader].  [request_error method url] is the error, if any,
    with which [http.NewRequestWithContext] refuses the method or the URL. *)
Definition ForwardToLeader (request_error : string -> string -> option string)
    (node : Node) (method path : string) (body : option string) : Outcome :=
  if Leader node then Return None None
  else
    let leaderAddr := LeaderAddress node in
    if String.eqb leaderAddr "" then Return None (Some NoLeaderAvailable)
    else if (String.length leaderAddr <? 4)%nat then
      Panic "slice bounds out of range"
    else
      let suffix := Go.drop_bytes (String.length leaderAddr - 4) leaderAddr in
      match Go.scan_int suffix with
      | None => Return None (Some (ParseLeaderPort suffix))
      | Some leaderPort =>
          let url := leaderHTTPAddr leaderPort ++ path in
          match request_error method url with
          | Some err => Return None (Some (RequestError err))
          | None =>
              ClientDo {| Method := method; URL := url;
                          ContentType :=
                            match body with
                            | Some _ => Some "application/json"
                            | None => None
                            end;
                          Body := "" |}
                       receive
          end
      end.

(** A call touches the network exactly when it reaches [client.Do]. *)
Definition network_calls (o : Outcome) : list Request :=
  match o with
  | ClientDo req _ => [req]
  | _ => []
  end.

End Transport.

(** ** The key-value store *)

Module Store.

Inductive Errno := ENOENT | EISDIR | EACCES.

(** The errors of package [os] that the store returns. *)
Inductive Error :=
| ErrNotExist
| PathError (op path : string) (errno : Errno).

(** [os.IsNotExist]. *)
Definition IsNotExist (e : Error) : bool :=
  match e with
  | ErrNotExist => true
  | PathError _ _ ENOENT => true
  | PathError _ _ _ => false
  end.

(** The directory [s.path]: its regular files, name and content, in the
    order of the names, which is the order in which [os.ReadDir] lists
    them.  The store creates no subdirectory. *)
Definition Dir := list (string * string).

Fixpoint read_file (name : string) (d : Dir) : option string :=
  match d with
  | [] => None
  | (n, content) :: rest => if String.eqb n name then Some content else read_file name rest
  end.

Fixpoint write_file (name content : string) (d : Dir) : Dir :=
  match d with
  | [] => [(name, content)]
  | (n, c) :: rest =>
      match String.compare name n with
      | Eq => (name, content) :: rest
      | Lt => (name, content) :: d
      | Gt => (n, c) :: write_file name content rest
      end
  end.


Fixpoint has_separator (s : string) : bool :=
  match s with
  | String c r => Ascii.eqb c "/" || has_separator r
  | EmptyString => false
  end.

(** The keys for which [filepath.Join(s.path, key)] is the entry [key] of
    the directory: one path element that is not [.] or [..]. *)
Definition entry_name (key : string) : bool :=
  negb (String.eqb key "") && negb (String.eqb key ".") && negb (String.eqb key "..")
  && negb (has_separator key).

(** [filepath.Join] of a clean directory path and an entry name. *)
Definition Join (dir name : string) : string := dir ++ "/" ++ name.

Record Store := {
  path : string;
  inMemory : gmap string string;
  disk : Dir
}.

(** [NewStore]: [dir] is the content of the directory, which [MkdirAll]
    leaves as it finds it. *)
Definition NewStore (path : string) (dir : Dir) : Store :=
  {| path := path; inMemory := ∅; disk := dir |}.

Definition set_inMemory (s : Store) (m : gmap string string) : Store :=
  {| path := path s; inMemory := m; disk := disk s |}.
Definition set_disk (s : Store) (d : Dir) : Store :=
  {| path := path s; inMemory := inMemory s; disk := d |}.

(** The file-based branches of [Set], [Get] and [Delete] are modelled for
    the keys that name an entry of the directory; for another key the
    functions below answer [None]. *)

(** [Set] ([Set] itself is a sort of Rocq). *)
Definition Set_ (s : Store) (key val : string) : option (Store * option Error) :=
  if String.eqb (path s) "" then Some (set_inMemory s (<[key := val]> (inMemory s)), None)
  else if entry_name key then Some (set_disk s (write_file key val (disk s)), None)
  else None.

(** [Get]: the value, or the error. *)
Definition Get (s : Store) (key : string) : option (string + Error) :=
  if String.eqb (path s) "" then
    match inMemory s !! key with
    | None => Some (inr ErrNotExist)
    | Some val => Some (inl val)
    end
  else if entry_name key then
    match read_file key (disk s) with
    | Some val => Some (inl val)
    | None => Some (inr (PathError "open" (Join (path s) key) ENOENT))
    end
  else None.




(** One round of the loop of [LoadSnapshot] over the directory entries. *)
Definition latest (acc : string * Z) (file : string) : string * Z :=
  let '(latestSnapshot, latestTime) := acc in
  if (9 <? String.length file)%nat && String.eqb (Go.take_bytes 9 file) "snapshot-" then
    match Go.scan_int64 (Go.drop_bytes 9 file) with
    | None => acc
    | Some timestamp =>
        if latestTime <? timestamp then (file, timestamp) else acc
    end
  else acc.

(** [LoadSnapshot]: the data, or the error. *)
Definition LoadSnapshot (s : Store) : string + Error :=
  if String.eqb (path s) "" then
    match inMemory s !! "snapshot" with
    | None => inr ErrNotExist
    | Some val => inl val
    end
  else
    let '(latestSnapshot, _) := foldl latest ("", 0) (List.map fst (disk s)) in
    if String.eqb latestSnapshot "" then inr ErrNotExist
    else
      match read_file latestSnapshot (disk s) with
      | Some val => inl val
      | None => inr (PathError "open" (Join (path s) latestSnapshot) ENOENT)
      end.






End Store.

(** ** What the service expects of the state machine *)

Module Ledger.
Import Models FSM.

(** In each of the three maps, an entry is stored under its own id. *)
Definition keyed_by_id (f : FSM) : Prop :=
  (forall (k : string) (p : Printer), printers f !! k = Some p -> Printer_ID p = k)
  /\ (forall (k : string) (fl : Filament), filaments f !! k = Some fl -> Filament_ID fl = k)
  /\ (forall (k : string) (job : PrintJob), printJobs f !! k = Some job -> ID job = k).

(** Every stored job names a stored printer and a stored filament. *)
Definition parents_exist (f : FSM) : Prop :=
  forall (id : string) (job : PrintJob),
    printJobs f !! id = Some job ->
    is_Some (printers f !! PrinterID job) /\ is_Some (filaments f !! FilamentID job).

(** What a stored job reserves of the filament [filamentID]. *)
Definition share (filamentID : string) (job : PrintJob) : Z :=
  if Spec.active filamentID job then PrintWeightInGrams job else 0.

(** A log entry as a careful client issues it in the state [f]: a filament
    is entered under an id that is not stored yet, with a remaining weight
    that is not negative; a print job asks for a weight that is not
    negative. *)
Definition careful (f : FSM) (log : LogData) : bool :=
  match log with
  | BadJSON _ => true
  | CommandJSON cmd =>
      if String.eqb (Cmd_Type cmd) AddFilament then
        match Cmd_Filament cmd with
        | Some fl =>
            match filaments f !! Filament_ID fl with
            | None =>
                (0 <=? RemainingWeightInGrams fl) && (RemainingWeightInGrams fl <=? Go.max_int)
            | Some _ => false
            end
        | None => true
        end
      else if String.eqb (Cmd_Type cmd) AddPrintJob then
        match Cmd_PrintJob cmd with
        | Some pj => 0 <=? PrintWeightInGrams pj
        | None => true
        end
      else true
  end.

(** A log of which every entry is careful in the state in which it is
    applied. *)
Fixpoint careful_log (f : FSM) (logs : list LogData) : bool :=
  match logs with
  | [] => true
  | log :: rest => careful f log && careful_log (fst (Apply f log)) rest
  end.

(** The weights are those of a ledger in order: no stored job asks for a
    negative weight, and what the queued and running jobs reserve of a
    filament is within what remains of it. *)
Definition in_order (f : FSM) : Prop :=
  (forall (id : string) (job : PrintJob),
      printJobs f !! id = Some job -> 0 <= PrintWeightInGrams job)
  /\ (forall (filamentID : string) (fl : Filament),
        filaments f !! filamentID = Some fl ->
        0 <= Spec.reserved (printJobs f) filamentID <= RemainingWeightInGrams fl
        /\ RemainingWeightInGrams fl <= Go.max_int).

(** A log entry that carries an [AddPrintJob] command for a job of the id
    [id]. *)
Definition adds_job (id : string) (log : LogData) : bool :=
  match log with
  | BadJSON _ => false
  | CommandJSON cmd =>
      String.eqb (Cmd_Type cmd) AddPrintJob
      && match Cmd_PrintJob cmd with
         | Some pj => String.eqb (ID pj) id
         | None => false
         end
  end.

End Ledger.

(** ** The read accessors of the state machine *)

Module Reads.
Import Models FSM.

(** An order in which a [range] loop may visit the entries of the map [m]:
    every entry once, in an order that Go leaves open. *)
Definition visits {V : Type} (m : gmap string V) (visited : list (string * V)) : Prop :=
  visited ≡ₚ map_to_list m.

(** [GetPrinters], [GetFilaments] and [GetPrintJobs], along the order in
    which their loop visits the map: each entry is appended to the slice. *)
Definition GetPrinters (visited : list (string * Printer)) : list Printer :=
  foldl (fun printers entry => (printers ++ [snd entry])%list) [] visited.

Definition GetFilaments (visited : list (string * Filament)) : list Filament :=
  foldl (fun filaments entry => (filaments ++ [snd entry])%list) [] visited.

Definition GetPrintJobs (visited : list (string * PrintJob)) : list PrintJob :=
  foldl (fun printJobs entry => (printJobs ++ [snd entry])%list) [] visited.

(** [GetPrintJobsByStatus]. *)
Definition GetPrintJobsByStatus (visited : list (string * PrintJob)) (status : string)
  : list PrintJob :=
  foldl (fun jobs entry =>
           if String.eqb (Status (snd entry)) status then (jobs ++ [snd entry])%list else jobs)
        [] visited.

(** [GetPrintJob]: the job and [true], or [None] for [nil] and [false]. *)
Definition GetPrintJob (f : FSM) (id : string) : option PrintJob := printJobs f !! id.

End Reads.

(** ** The rest of the key-value store *)

Module StoreMore.
Import Store.

(** The names of a directory ascend in the order of strings: the order in
    which [os.ReadDir] lists them. *)
Definition ascending (d : Dir) : Prop :=
  StronglySorted (fun a b => String.compare a b = Lt) (List.map fst d).

(** [Keys].  In memory [visited] is the order in which the loop visits the
    map; on disk the loop follows the listing of the directory. *)
Definition Keys (s : Store) (visited : list (string * string)) : list string :=
  if String.eqb (path s) "" then
    foldl (fun keys entry => (keys ++ [fst entry])%list) [] visited
  else
    foldl (fun keys file => (keys ++ [fst file])%list) [] (disk s).


Inductive RestoreError :=
| DecodeError (err : string)
| OsError (err : Error).

(** [Restore].  [decoded] is what the JSON decoder makes of the reader: an
    error or the map; [visited] is the order in which the loop visits that
    map.  On disk every file of the directory is removed before the
    entries of the map are written. *)
Definition Restore (s : Store) (decoded : string + gmap string string)
    (visited : list (string * string)) : option (Store * option RestoreError) :=
  match decoded with
  | inl err => Some (s, Some (DecodeError err))
  | inr backup =>
      if String.eqb (path s) "" then Some (set_inMemory s backup, None)
      else if forallb (fun entry => entry_name (fst entry)) visited then
        Some (set_disk s
                (foldl (fun d entry => write_file (fst entry) (snd entry) d) [] visited),
              None)
      else None
  end.

(** The time that the loop of [LoadSnapshot] reads off a file name: none
    when the name is not longer than [snapshot-], does not start with it or
    does not scan. *)
Definition snapshot_time (file : string) : option Z :=
  if (9 <? String.length file)%nat && String.eqb (Go.take_bytes 9 file) "snapshot-"
  then Go.scan_int64 (Go.drop_bytes 9 file)
  else None.

Section Configuration.

(** The configuration of the consensus library and its JSON text. *)
Variable Configuration : Type.
Variable empty : Configuration.
Variable Marshal : Configuration -> string.
Variable Unmarshal : string -> option Configuration.

(** [PersistState]. *)
Definition PersistState (s : Store) (state : Configuration) : option (Store * option Error) :=
  Set_ s "raft_state" (Marshal state).

Inductive StateError :=
| StoreError (err : Error)
| UnmarshalError.

(** [LoadState]: the configuration and the error. *)
Definition LoadState (s : Store) : option (Configuration * option StateError) :=
  match Get s "raft_state" with
  | None => None
  | Some (inr err) =>
      if IsNotExist err then Some (empty, None) else Some (empty, Some (StoreError err))
  | Some (inl data) =>
      match Unmarshal data with
      | None => Some (empty, Some UnmarshalError)
      | Some state => Some (state, None)
      end
  end.

End Configuration.

End StoreMore.

(** ** Membership: the callers of [ForwardToLeader] and the handlers *)

Module Membership.
Import Transport.

(** A caller that keeps the error of [ForwardToLeader] and drops the
    bytes. *)
Definition error_only (o : Outcome) : Outcome :=
  match o with
  | Return _ err => Return None err
  | Panic reason => Panic reason
  | ClientDo req k => ClientDo req (fun r => (None, snd (k r)))
  end.

Section Marshal.

(** [json.Marshal] of a map from strings to strings; it does not fail. *)
Variable Marshal : list (string * string) -> string.

(** [JoinCluster]. *)
Definition JoinCluster (request_error : string -> string -> option string) (node : Node)
    (nodeID nodeAddr : string) : Outcome :=
  error_only
    (ForwardToLeader request_error node "POST" "/join"
       (Some (Marshal [("node_id", nodeID); ("node_addr", nodeAddr)]))).

(** [LeaveCluster]. *)
Definition LeaveCluster (request_error : string -> string -> option string) (node : Node)
    (nodeID : string) : Outcome :=
  error_only
    (ForwardToLeader request_error node "POST" "/leave" (Some (Marshal [("node_id", nodeID)]))).

End Marshal.

(** The handler of [/join] in [RaftHandler]: the status that it answers
    and the voters that it hands to [AddVoter].  [leader] is what
    [t.node.Leader()] answers, [decode] what the JSON decoder makes of the
    body (the node id and the node address, or an error), [AddVoter] the
    error of the future of the consensus library. *)
Definition join_handler (leader : bool) (decode : string -> option (string * string))
    (AddVoter : string -> string -> option string) (method body : string)
  : Z * list (string * string) :=
  if negb (String.eqb method "POST") then (405, [])
  else if negb leader then (409, [])
  else
    match decode body with
    | None => (400, [])
    | Some (nodeID, nodeAddr) =>
        match AddVoter nodeID nodeAddr with
        | Some _ => (500, [(nodeID, nodeAddr)])
        | None => (200, [(nodeID, nodeAddr)])
        end
    end.

(** The handler of [/leave]: the status and the servers handed to
    [RemoveServer]. *)
Definition leave_handler (leader : bool) (decode : string -> option string)
    (RemoveServer : string -> option string) (method body : string) : Z * list string :=
  if negb (String.eqb method "POST") then (405, [])
  else if negb leader then (409, [])
  else
    match decode body with
    | None => (400, [])
    | Some nodeID =>
        match RemoveServer nodeID with
        | Some _ => (500, [nodeID])
        | None => (200, [nodeID])
        end
    end.

End Membership.

(** ** config/config.go and the bootstrap of [NewNode] *)

Module Config.

(** [strings.Split(s, ",")]: the pieces between the commas, all of them. *)
Fixpoint Split (s : string) : list string :=
  match s with
  | EmptyString => [EmptyString]
  | String c r =>
      if Ascii.eqb c "," then EmptyString :: Split r
      else
        match Split r with
        | piece :: pieces => String c piece :: pieces
        | [] => [String c EmptyString]
        end
  end.

(** [strings.Join(pieces, ",")]. *)
Fixpoint Join (pieces : list string) : string :=
  match pieces with
  | [] => EmptyString
  | [piece] => piece
  | piece :: rest => piece ++ "," ++ Join rest
  end.

(** Whether a text holds a comma, and how many. *)
Fixpoint has_comma (s : string) : bool :=
  match s with
  | EmptyString => false
  | String c r => Ascii.eqb c "," || has_comma r
  end.

Fixpoint commas (s : string) : nat :=
  match s with
  | EmptyString => 0
  | String c r => if Ascii.eqb c "," then S (commas r) else commas r
  end.

(** The flags as [flag.Parse] leaves them. *)
Record Flags := {
  flag_id : string;
  flag_raft_addr : string;
  flag_raft_dir : string;
  flag_http_addr : string;
  flag_bootstrap : bool;
  flag_join : string;
  flag_peers : string
}.

Record Config := {
  NodeID : string;
  RaftAddr : string;
  RaftDir : string;
  HTTPAddr : string;
  Bootstrap : bool;
  JoinAddr : string;
  Peers : list string
}.

(** [ParseFlags] after [flag.Parse]: the line written to the standard error
    before [os.Exit(1)], or the configuration. *)
Definition ParseFlags (flags : Flags) : string + Config :=
  if String.eqb (flag_id flags) "" then inl "Node ID is required"
  else if String.eqb (flag_raft_addr flags) "" then inl "Raft address is required"
  else if String.eqb (flag_raft_dir flags) "" then inl "Raft directory is required"
  else if String.eqb (flag_http_addr flags) "" then inl "HTTP address is required"
  else
    inr {| NodeID := flag_id flags; RaftAddr := flag_raft_addr flags;
           RaftDir := flag_raft_dir flags; HTTPAddr := flag_http_addr flags;
           Bootstrap := flag_bootstrap flags; JoinAddr := flag_join flags;
           Peers := if String.eqb (flag_peers flags) "" then [] else Split (flag_peers flags) |}.

(** A server of the configuration of the consensus library. *)
Record Server := {
  Server_ID : string;
  Server_Address : string
}.

(** The configuration with which [NewNode] bootstraps the cluster: the
    node itself, then the peers in their order. *)
Definition bootstrap_servers (NodeID RaftAddr : string) (Peers : list string) : list Server :=
  foldl (fun servers peer =>
           if negb (String.eqb peer RaftAddr)
           then (servers ++ [{| Server_ID := "node-" ++ peer; Server_Address := peer |}])%list
           else servers)
        [{| Server_ID := NodeID; Server_Address := RaftAddr |}] Peers.

End Config.

(** * Properties *)

(** ** Machine arithmetic *)

Lemma wrap_in_range (z : Z) : Go.in_range (Go.wrap z).
Proof.
  unfold Go.in_range, Go.wrap, Go.min_int, Go.max_int.
  pose proof (Z.mod_pos_bound (z + 2 ^ 63) (2 ^ 64) ltac:(lia)). lia.
Qed.

Lemma wrap_id (z : Z) : Go.in_range z -> Go.wrap z = z.
Proof.
  unfold Go.in_range, Go.wrap, Go.min_int, Go.max_int. intros H.
  rewrite Z.mod_small; lia.
Qed.

Lemma wrap_sub_wrap (a b : Z) : Go.wrap (Go.wrap a - b) = Go.wrap (a - b).
Proof.
  unfold Go.wrap. f_equal.
  replace ((a + 2 ^ 63) mod 2 ^ 64 - 2 ^ 63 - b + 2 ^ 63)
    with ((a + 2 ^ 63) mod 2 ^ 64 + (- b)) by lia.
  rewrite Zplus_mod_idemp_l. f_equal. lia.
Qed.

(** ** The reservation loop of [AddPrintJob] *)

Lemma reserve_loop_list (filamentID : string) (remaining : Z) (l : list (string * Models.PrintJob)) :
  let acc := foldr (uncurry (FSM.reserve filamentID)) remaining l in
  let sum := foldr (uncurry (fun (_ : string) job sum =>
                       if Spec.active filamentID job
                       then sum + Models.PrintWeightInGrams job else sum)) 0 l in
  (acc = remaining /\ sum = 0) \/ acc = Go.wrap (remaining - sum).
Proof.
  induction l as [|[k job] l IH]; cbn [foldr uncurry] in *.
  - left. done.
  - set (acc := foldr _ remaining l) in *. set (sum := foldr _ 0 l) in *.
    change (FSM.reserve filamentID k job acc)
      with (if Spec.active filamentID job
            then Go.sub acc (Models.PrintWeightInGrams job) else acc).
    destruct (Spec.active filamentID job); [|exact IH].
    right. unfold Go.sub. destruct IH as [[Ha Hs]|Ha]; rewrite Ha.
    + rewrite Hs. f_equal; lia.
    + rewrite wrap_sub_wrap. f_equal; lia.
Qed.

(** The loop computes the remaining weight minus the reserved sum, reduced
    to an [int]; no reduction takes place when the difference is one. *)
Lemma availableWeight_reserved (f : FSM.FSM) (filamentID : string) (remaining : Z) :
  Go.in_range (remaining - Spec.reserved (FSM.printJobs f) filamentID) ->
  FSM.availableWeight f filamentID remaining
  = remaining - Spec.reserved (FSM.printJobs f) filamentID.
Proof.
  unfold FSM.availableWeight, Spec.reserved. rewrite !map_fold_foldr. intros Hr.
  destruct (reserve_loop_list filamentID remaining (map_to_list (FSM.printJobs f)))
    as [[-> Hs]| ->].
  - rewrite Hs. lia.
  - by apply wrap_id.
Qed.

Lemma availableWeight_wrap (f : FSM.FSM) (filamentID : string) (remaining : Z) :
  Go.in_range remaining ->
  FSM.availableWeight f filamentID remaining
  = Go.wrap (remaining - Spec.reserved (FSM.printJobs f) filamentID).
Proof.
  unfold FSM.availableWeight, Spec.reserved. rewrite !map_fold_foldr. intros Hr.
  destruct (reserve_loop_list filamentID remaining (map_to_list (FSM.printJobs f)))
    as [[-> Hs]| ->]; [|done].
  rewrite Hs, Z.sub_0_r. symmetry. by apply wrap_id.
Qed.

(** Go leaves the order in which the loop visits the map open; the weight
    that the loop computes is the same in every order. *)
Lemma reserve_comm (filamentID k1 k2 : string) (j1 j2 : Models.PrintJob) (acc : Z) :
  FSM.reserve filamentID k1 j1 (FSM.reserve filamentID k2 j2 acc)
  = FSM.reserve filamentID k2 j2 (FSM.reserve filamentID k1 j1 acc).
Proof.
  unfold FSM.reserve.
  destruct (_ && _); destruct (_ && _); try reflexivity.
  unfold Go.sub. rewrite !wrap_sub_wrap. f_equal. lia.
Qed.

Lemma availableWeight_any_order (f : FSM.FSM) (filamentID : string) (remaining : Z)
    (visited : list (string * Models.PrintJob)) :
  visited ≡ₚ map_to_list (FSM.printJobs f) ->
  foldr (uncurry (FSM.reserve filamentID)) remaining visited
  = FSM.availableWeight f filamentID remaining.
Proof.
  intros Hperm. unfold FSM.availableWeight. rewrite map_fold_foldr.
  apply (foldr_permutation eq (uncurry (FSM.reserve filamentID)) remaining); [|exact Hperm].
  intros _ [k1 j1] _ [k2 j2] acc _ _ _. cbn. apply reserve_comm.
Qed.

(** ** [Apply], case by case *)

Section ApplyCases.
Import Models FSM.

Variable f : FSM.
Variable cmd : Command.

Lemma Apply_AddPrintJob :
  Cmd_Type cmd = AddPrintJob ->
  Apply f (CommandJSON cmd) =
  match Cmd_PrintJob cmd with
  | None => (f, Some "print job is nil")
  | Some pj =>
      match printers f !! PrinterID pj with
      | None => (f, Some ("printer with ID " ++ PrinterID pj ++ " does not exist"))
      | Some _ =>
          match filaments f !! FilamentID pj with
          | None => (f, Some ("filament with ID " ++ FilamentID pj ++ " does not exist"))
          | Some filament =>
              let available :=
                availableWeight f (FilamentID pj) (RemainingWeightInGrams filament) in
              if available <? PrintWeightInGrams pj then
                (f, Some (not_enough_filament available (PrintWeightInGrams pj)))
              else
                (set_printJobs f (<[ID pj := set_Status pj "Queued"]> (printJobs f)), None)
          end
      end
  end.
Proof. intros H. unfold Apply. rewrite H. reflexivity. Qed.

Lemma Apply_UpdatePrintJob :
  Cmd_Type cmd = UpdatePrintJob ->
  Apply f (CommandJSON cmd) =
  match printJobs f !! JobID cmd with
  | None => (f, Some ("print job with ID " ++ JobID cmd ++ " does not exist"))
  | Some job =>
      match ValidateStatusChange (Status job) (NewStatus cmd) with
      | Some err => (f, Some err)
      | None =>
          let job' := set_Status job (NewStatus cmd) in
          let f1 := set_printJobs f (<[JobID cmd := job']> (printJobs f)) in
          if String.eqb (Status job) "Running" && String.eqb (NewStatus cmd) "Done" then
            match filaments f !! FilamentID job with
            | None => (f1, Some ("filament with ID " ++ FilamentID job ++ " does not exist"))
            | Some filament =>
                let w := Go.sub (RemainingWeightInGrams filament) (PrintWeightInGrams job) in
                (set_filaments f1
                   (<[FilamentID job :=
                        set_RemainingWeightInGrams filament (if w <? 0 then 0 else w)]>
                      (filaments f)),
                 None)
            end
          else (f1, None)
      end
  end.
Proof. intros H. unfold Apply. rewrite H. reflexivity. Qed.

End ApplyCases.

(** ** The transition validator *)

Lemma ValidateStatusChange_legal (current new : string) :
  Spec.legal_transition current new -> Models.ValidateStatusChange current new = None.
Proof.
  unfold Spec.legal_transition.
  intros [[-> ->]|[[-> ->]|[[-> ->]|[-> ->]]]]; reflexivity.
Qed.

Lemma ValidateStatusChange_None (current new : string) :
  Models.ValidateStatusChange current new = None -> Spec.legal_transition current new.
Proof.
  unfold Models.ValidateStatusChange, Spec.legal_transition.
  destruct (String.eqb_spec current "Queued") as [->|_].
  - destruct (String.eqb_spec new "Running") as [->|_]; [auto|].
    destruct (String.eqb_spec new "Canceled") as [->|_]; [auto|]. discriminate.
  - destruct (String.eqb_spec current "Running") as [->|_]; [|discriminate].
    destruct (String.eqb_spec new "Done") as [->|_]; [auto|].
    destruct (String.eqb_spec new "Canceled") as [->|_]; [auto 6|]. discriminate.
Qed.

Lemma ValidateStatusChange_Some (current new err : string) :
  Models.ValidateStatusChange current new = Some err -> Spec.illegal_transition_error err.
Proof.
  unfold Models.ValidateStatusChange, Spec.illegal_transition_error.
  repeat match goal with |- context [if ?b then _ else _] => destruct b end;
    intros [= <-]; auto.
Qed.

Lemma legal_transition_valid (current new : string) :
  Spec.legal_transition current new -> Models.IsValidPrintJobStatus new = true.
Proof.
  unfold Spec.legal_transition.
  intros [[_ ->]|[[_ ->]|[[_ ->]|[_ ->]]]]; reflexivity.
Qed.

(** ** Adding a print job *)

Section AddPrintJob.
Import Models FSM.

(** C2, as the code has it.  For an [AddPrintJob] command whose printer and
    filament are stored, let [free] be the filament's remaining weight minus
    the sum of the requested weights of the stored jobs against that
    filament that are queued or running, and let [free] be an [int].  When
    the requested weight exceeds [free], [Apply] returns the error whose
    text carries [free] and the requested weight, and the state is as
    before.  Otherwise the job is stored under its id in status Queued,
    the jobs stored under the other ids are as before, and so are the
    printers and the filaments. *)
Theorem C2_add_print_job_capacity
    (f : FSM) (cmd : Command) (pj : PrintJob) (printer : Printer) (filament : Filament) :
  Cmd_Type cmd = AddPrintJob ->
  Cmd_PrintJob cmd = Some pj ->
  printers f !! PrinterID pj = Some printer ->
  filaments f !! FilamentID pj = Some filament ->
  let free := RemainingWeightInGrams filament - Spec.reserved (printJobs f) (FilamentID pj) in
  Go.in_range free ->
  (free < PrintWeightInGrams pj ->
   Apply f (CommandJSON cmd)
   = (f, Some ("not enough filament remaining. Available: " ++ Go.itoa free
               ++ " g, Required: " ++ Go.itoa (PrintWeightInGrams pj) ++ " g")))
  /\ (PrintWeightInGrams pj <= free ->
      exists f' : FSM,
        Apply f (CommandJSON cmd) = (f', None)
        /\ printJobs f' !! ID pj = Some (set_Status pj "Queued")
        /\ (forall id : string, id <> ID pj -> printJobs f' !! id = printJobs f !! id)
        /\ printers f' = printers f
        /\ filaments f' = filaments f).
Proof.
  intros Hty Hpj Hp Hf free Hfree.
  rewrite (Apply_AddPrintJob f cmd Hty), Hpj, Hp, Hf. cbn zeta.
  rewrite (availableWeight_reserved f (FilamentID pj) _ Hfree). fold free.
  split; intros Hcmp.
  - destruct (Z.ltb_spec free (PrintWeightInGrams pj)); [reflexivity | lia].
  - destruct (Z.ltb_spec free (PrintWeightInGrams pj)); [lia|].
    eexists. split; [reflexivity|]. cbn. split; [apply lookup_insert_eq|].
    split; [|done]. intros id Hid. by apply lookup_insert_ne.
Qed.

End AddPrintJob.

Lemma C2_add_print_job_capacity_witness :
  Go.in_range (1000 - Spec.reserved (FSM.printJobs Scenario.queued_400) "f1")
  /\ FSM.Apply Scenario.queued_400 (Scenario.add_print_job (Scenario.job "j2" 700 ""))
     = (Scenario.queued_400,
        Some "not enough filament remaining. Available: 600 g, Required: 700 g").
Proof.
  assert (Hr : Go.in_range (1000 - Spec.reserved (FSM.printJobs Scenario.queued_400) "f1"))
    by (vm_compute; split; discriminate).
  split; [exact Hr|].
  apply (C2_add_print_job_capacity Scenario.queued_400
           (Scenario.add_print_job_command (Scenario.job "j2" 700 ""))
           (Scenario.job "j2" 700 "") Scenario.ender (Scenario.spool 1000)
           eq_refl eq_refl eq_refl eq_refl Hr).
  vm_compute. reflexivity.
Defined.

(** C2 fails as it is stated.  A job added under the id of a stored job
    takes its place: the stored job was running and is queued afterwards.
    And the weight that the loop computes is an [int]: with 2^63 grams free
    over the integers, a job of 5 g is refused. *)
Lemma C2_counterexample :
  (Models.PrintWeightInGrams (Scenario.job "j1" 100 "")
     <= 1000 - Spec.reserved (FSM.printJobs Scenario.running_400) "f1"
   /\ snd (FSM.Apply Scenario.running_400 (Scenario.add_print_job (Scenario.job "j1" 100 "")))
      = None
   /\ Models.Status <$> FSM.printJobs Scenario.running_400 !! "j1" = Some "Running"
   /\ Models.Status <$>
        FSM.printJobs
          (fst (FSM.Apply Scenario.running_400
                  (Scenario.add_print_job (Scenario.job "j1" 100 "")))) !! "j1"
      = Some "Queued")
  /\ (Models.PrintWeightInGrams (Scenario.job "j2" 5 "")
        <= Go.max_int - Spec.reserved (FSM.printJobs Scenario.full_spool) "f1"
      /\ FSM.Apply Scenario.full_spool (Scenario.add_print_job (Scenario.job "j2" 5 ""))
         = (Scenario.full_spool,
            Some "not enough filament remaining. Available: -9223372036854775808 g, Required: 5 g")).
Proof.
  repeat split; try (vm_compute; reflexivity); vm_compute; discriminate.
Qed.

Section AddPrintJobParents.
Import Models FSM.

(** C5.  An [AddPrintJob] command whose printer is not stored is answered
    with the unknown-printer error, one whose printer is stored and whose
    filament is not with the unknown-filament error, and the state is as
    before in both cases; so a command that [Apply] accepts names a stored
    printer and a stored filament, in the state before and in the state
    after the call. *)
Theorem C5_add_print_job_unknown_parent (f : FSM) (cmd : Command) (pj : PrintJob) :
  Cmd_Type cmd = AddPrintJob ->
  Cmd_PrintJob cmd = Some pj ->
  (printers f !! PrinterID pj = None ->
   Apply f (CommandJSON cmd)
   = (f, Some ("printer with ID " ++ PrinterID pj ++ " does not exist")))
  /\ (is_Some (printers f !! PrinterID pj) ->
      filaments f !! FilamentID pj = None ->
      Apply f (CommandJSON cmd)
      = (f, Some ("filament with ID " ++ FilamentID pj ++ " does not exist")))
  /\ (snd (Apply f (CommandJSON cmd)) = None ->
      is_Some (printJobs (fst (Apply f (CommandJSON cmd))) !! ID pj)
      /\ is_Some (printers f !! PrinterID pj)
      /\ is_Some (filaments f !! FilamentID pj)
      /\ is_Some (printers (fst (Apply f (CommandJSON cmd))) !! PrinterID pj)
      /\ is_Some (filaments (fst (Apply f (CommandJSON cmd))) !! FilamentID pj)).
Proof.
  intros Hty Hpj. rewrite (Apply_AddPrintJob f cmd Hty), Hpj.
  split; [|split].
  - intros ->. reflexivity.
  - intros [p ->] ->. reflexivity.
  - destruct (printers f !! PrinterID pj) as [p|] eqn:Hp; [|discriminate].
    destruct (filaments f !! FilamentID pj) as [fl|] eqn:Hf; [|discriminate].
    cbn zeta. destruct (_ <? _); [discriminate|]. cbn. intros _.
    rewrite lookup_insert_eq, Hp, Hf. eauto.
Qed.

Lemma C5_add_print_job_unknown_parent_witness :
  Apply NewFSM (Scenario.add_print_job (Scenario.job "j1" 100 ""))
  = (NewFSM, Some "printer with ID p1 does not exist").
Proof.
  apply (proj1 (C5_add_print_job_unknown_parent NewFSM
                  (Scenario.add_print_job_command (Scenario.job "j1" 100 ""))
                  (Scenario.job "j1" 100 "") eq_refl eq_refl)).
  reflexivity.
Defined.

(** C6.  The job that an accepted [AddPrintJob] command stores has status
    Queued, whatever status the command carried. *)
Theorem C6_add_print_job_stores_queued (f : FSM) (cmd : Command) (pj : PrintJob) :
  Cmd_Type cmd = AddPrintJob ->
  Cmd_PrintJob cmd = Some pj ->
  snd (Apply f (CommandJSON cmd)) = None ->
  printJobs (fst (Apply f (CommandJSON cmd))) !! ID pj = Some (set_Status pj "Queued")
  /\ Status (set_Status pj "Queued") = "Queued".
Proof.
  intros Hty Hpj. rewrite (Apply_AddPrintJob f cmd Hty), Hpj.
  destruct (printers f !! PrinterID pj); [|discriminate].
  destruct (filaments f !! FilamentID pj); [|discriminate].
  cbn zeta. destruct (_ <? _); [discriminate|]. cbn. intros _.
  split; [apply lookup_insert_eq | reflexivity].
Qed.

Lemma C6_add_print_job_stores_queued_witness :
  Status <$>
    printJobs (fst (Apply Scenario.queued_400
                      (Scenario.add_print_job (Scenario.job "j2" 100 "Done")))) !! "j2"
  = Some "Queued".
Proof.
  exact (f_equal (fmap Status)
           (proj1 (C6_add_print_job_stores_queued Scenario.queued_400
                     (Scenario.add_print_job_command (Scenario.job "j2" 100 "Done"))
                     (Scenario.job "j2" 100 "Done") eq_refl eq_refl eq_refl))).
Defined.

End AddPrintJobParents.

(** ** Updating a print job *)

Section UpdatePrintJob.
Import Models FSM.

Lemma illegal_transition_error_not_filament (filamentID err : string) :
  Spec.illegal_transition_error err ->
  err <> "filament with ID " ++ filamentID ++ " does not exist".
Proof. intros [-> | [-> | ->]]; discriminate. Qed.

(** C3.  For a stored job, [UpdatePrintJob] with a new status that is not a
    legal transition from the job's status is answered with one of the
    validator's errors and the state is as before.  Each of the four legal
    transitions passes the validator and is written to the stored job; the
    call then returns no error, except for a job that goes from Running to
    Done while its filament is not stored, and its error is never one of
    the validator's. *)
Theorem C3_update_print_job_transitions (f : FSM) (cmd : Command) (job : PrintJob) :
  Cmd_Type cmd = UpdatePrintJob ->
  printJobs f !! JobID cmd = Some job ->
  (~ Spec.legal_transition (Status job) (NewStatus cmd) ->
   exists err : string,
     Spec.illegal_transition_error err /\ Apply f (CommandJSON cmd) = (f, Some err))
  /\ (Spec.legal_transition (Status job) (NewStatus cmd) ->
      ValidateStatusChange (Status job) (NewStatus cmd) = None
      /\ printJobs (fst (Apply f (CommandJSON cmd))) !! JobID cmd
         = Some (set_Status job (NewStatus cmd))
      /\ (~ (Status job = "Running" /\ NewStatus cmd = "Done"
             /\ filaments f !! FilamentID job = None) ->
          snd (Apply f (CommandJSON cmd)) = None)
      /\ (forall err : string,
            snd (Apply f (CommandJSON cmd)) = Some err -> ~ Spec.illegal_transition_error err)).
Proof.
  intros Hty Hjob. rewrite (Apply_UpdatePrintJob f cmd Hty), Hjob. split.
  - intros Hil.
    destruct (ValidateStatusChange (Status job) (NewStatus cmd)) as [err|] eqn:Hv.
    + exists err. split; [by eapply ValidateStatusChange_Some | reflexivity].
    + destruct Hil. by apply ValidateStatusChange_None.
  - intros Hl. rewrite (ValidateStatusChange_legal _ _ Hl). cbn zeta.
    split; [reflexivity|].
    destruct (String.eqb_spec (Status job) "Running") as [Hr|Hr];
      destruct (String.eqb_spec (NewStatus cmd) "Done") as [Hd|Hd]; cbn [andb].
    1: destruct (filaments f !! FilamentID job) as [fl|] eqn:Hfl.
    all: cbn; rewrite ?lookup_insert_eq; repeat split; try done; try tauto.
    intros err [= <-] Herr.
    by apply (illegal_transition_error_not_filament (FilamentID job)) in Herr.
Qed.

Lemma C3_update_print_job_transitions_witness :
  exists err : string,
    Spec.illegal_transition_error err
    /\ Apply Scenario.queued_400 (Scenario.update_print_job "j1" "Done")
       = (Scenario.queued_400, Some err).
Proof.
  apply (proj1 (C3_update_print_job_transitions Scenario.queued_400
                  (Scenario.update_print_job_command "j1" "Done")
                  (Scenario.job "j1" 400 "Queued") eq_refl eq_refl)).
  unfold Spec.legal_transition. cbn.
  intros [[_ H]|[[_ H]|[[H _]|[H _]]]]; discriminate.
Defined.

(** C4, as the code has it.  For a running job whose filament is stored
    with remaining weight [r], [UpdatePrintJob] to Done succeeds, writes
    Done to the job and a remaining weight to the filament that is never
    negative, and that is [max (r - w) 0] for the job's weight [w] whenever
    [r - w] is an [int]; the other filaments are as before.  An
    [UpdatePrintJob] that is not from Running to Done leaves all filaments
    as they are. *)
Theorem C4_done_consumes_filament (f : FSM) (cmd : Command) (job : PrintJob) :
  Cmd_Type cmd = UpdatePrintJob ->
  printJobs f !! JobID cmd = Some job ->
  (Status job = "Running" -> NewStatus cmd = "Done" ->
   forall filament : Filament,
     filaments f !! FilamentID job = Some filament ->
     exists remaining : Z,
       Apply f (CommandJSON cmd)
       = (set_filaments
            (set_printJobs f (<[JobID cmd := set_Status job "Done"]> (printJobs f)))
            (<[FilamentID job := set_RemainingWeightInGrams filament remaining]> (filaments f)),
          None)
       /\ 0 <= remaining
       /\ (Go.in_range (RemainingWeightInGrams filament - PrintWeightInGrams job) ->
           remaining = Z.max (RemainingWeightInGrams filament - PrintWeightInGrams job) 0))
  /\ (~ (Status job = "Running" /\ NewStatus cmd = "Done") ->
      filaments (fst (Apply f (CommandJSON cmd))) = filaments f).
Proof.
  intros Hty Hjob. rewrite (Apply_UpdatePrintJob f cmd Hty), Hjob. split.
  - intros Hr Hd filament Hfl. rewrite Hr, Hd, Hfl. cbn.
    eexists. split; [reflexivity|]. unfold Go.sub. split.
    + destruct (Z.ltb_spec (Go.wrap (RemainingWeightInGrams filament - PrintWeightInGrams job)) 0);
        lia.
    + intros Hin. rewrite (wrap_id _ Hin).
      destruct (Z.ltb_spec (RemainingWeightInGrams filament - PrintWeightInGrams job) 0); lia.
  - intros Hn.
    destruct (ValidateStatusChange (Status job) (NewStatus cmd)); [reflexivity|]. cbn zeta.
    destruct (String.eqb_spec (Status job) "Running") as [Hr|Hr];
      destruct (String.eqb_spec (NewStatus cmd) "Done") as [Hd|Hd]; cbn [andb];
      try reflexivity.
    tauto.
Qed.

Lemma C4_done_consumes_filament_witness :
  exists remaining : Z,
    Apply Scenario.running_400 (Scenario.update_print_job "j1" "Done")
    = (set_filaments
         (set_printJobs Scenario.running_400
            (<["j1" := set_Status (Scenario.job "j1" 400 "Running") "Done"]>
               (printJobs Scenario.running_400)))
         (<["f1" := set_RemainingWeightInGrams (Scenario.spool 1000) remaining]>
            (filaments Scenario.running_400)),
       None)
    /\ 0 <= remaining
    /\ (Go.in_range (1000 - 400) -> remaining = Z.max (1000 - 400) 0).
Proof.
  exact (proj1 (C4_done_consumes_filament Scenario.running_400
                  (Scenario.update_print_job_command "j1" "Done")
                  (Scenario.job "j1" 400 "Running") eq_refl eq_refl)
           eq_refl eq_refl (Scenario.spool 1000) eq_refl).
Defined.

(** C4 fails as it is stated: the subtraction is that of [int].  The spool
    holds 2^63 - 1 grams and the running job asks for -1: over the integers
    2^63 grams remain, the code leaves 0. *)
Lemma C4_counterexample :
  printJobs Scenario.full_spool_running !! "j1" = Some (Scenario.job "j1" (-1) "Running")
  /\ filaments Scenario.full_spool_running !! "f1" = Some (Scenario.spool Go.max_int)
  /\ snd (Apply Scenario.full_spool_running (Scenario.update_print_job "j1" "Done")) = None
  /\ RemainingWeightInGrams <$>
       filaments (fst (Apply Scenario.full_spool_running
                         (Scenario.update_print_job "j1" "Done"))) !! "f1"
     = Some 0
  /\ Z.max (Go.max_int - (-1)) 0 = 2 ^ 63.
Proof. repeat split; vm_compute; reflexivity. Qed.

End UpdatePrintJob.

(** ** What every reachable state satisfies *)

Section Invariants.
Import Models FSM.

Lemma filaments_exist_Apply (f : FSM) (log : LogData) :
  Spec.filaments_exist f -> Spec.filaments_exist (fst (Apply f log)).
Proof.
  intros Hinv. destruct log as [err|cmd]; [exact Hinv|]. unfold Apply.
  destruct (String.eqb (Cmd_Type cmd) AddPrinter).
  { destruct (Cmd_Printer cmd); exact Hinv. }
  destruct (String.eqb (Cmd_Type cmd) AddFilament).
  { destruct (Cmd_Filament cmd) as [fl|]; [|exact Hinv].
    intros id job Hjob. cbn in *. rewrite lookup_insert.
    case_decide; [eauto | by eapply Hinv]. }
  destruct (String.eqb (Cmd_Type cmd) AddPrintJob).
  { destruct (Cmd_PrintJob cmd) as [pj|]; [|exact Hinv].
    destruct (printers f !! PrinterID pj); [|exact Hinv].
    destruct (filaments f !! FilamentID pj) as [fl|] eqn:Hfl; [|exact Hinv].
    cbn zeta. destruct (_ <? _); [exact Hinv|].
    intros id job. cbn. rewrite lookup_insert. case_decide.
    - intros [= <-]. cbn. rewrite Hfl. eauto.
    - apply Hinv. }
  destruct (String.eqb (Cmd_Type cmd) UpdatePrintJob); [|exact Hinv].
  destruct (printJobs f !! JobID cmd) as [job0|] eqn:Hjob0; [|exact Hinv].
  destruct (ValidateStatusChange (Status job0) (NewStatus cmd)); [exact Hinv|].
  assert (Hjobs : forall id job,
             <[JobID cmd := set_Status job0 (NewStatus cmd)]> (printJobs f) !! id = Some job ->
             is_Some (filaments f !! FilamentID job)).
  { intros id job. rewrite lookup_insert. case_decide.
    - intros [= <-]. cbn. by eapply Hinv.
    - apply Hinv. }
  cbn zeta. destruct (_ && _); [|exact Hjobs].
  cbn. destruct (filaments f !! FilamentID job0) as [fl|]; [|exact Hjobs].
  intros id job Hjob. cbn in *. rewrite lookup_insert.
  case_decide; [eauto | by eapply Hjobs].
Qed.

Lemma statuses_valid_Apply (f : FSM) (log : LogData) :
  Spec.statuses_valid f -> Spec.statuses_valid (fst (Apply f log)).
Proof.
  intros Hinv. destruct log as [err|cmd]; [exact Hinv|]. unfold Apply.
  destruct (String.eqb (Cmd_Type cmd) AddPrinter).
  { destruct (Cmd_Printer cmd); exact Hinv. }
  destruct (String.eqb (Cmd_Type cmd) AddFilament).
  { destruct (Cmd_Filament cmd); exact Hinv. }
  destruct (String.eqb (Cmd_Type cmd) AddPrintJob).
  { destruct (Cmd_PrintJob cmd) as [pj|]; [|exact Hinv].
    destruct (printers f !! PrinterID pj); [|exact Hinv].
    destruct (filaments f !! FilamentID pj); [|exact Hinv].
    cbn zeta. destruct (_ <? _); [exact Hinv|].
    intros id job. cbn. rewrite lookup_insert. case_decide.
    - intros [= <-]. reflexivity.
    - apply Hinv. }
  destruct (String.eqb (Cmd_Type cmd) UpdatePrintJob); [|exact Hinv].
  destruct (printJobs f !! JobID cmd) as [job0|] eqn:Hjob0; [|exact Hinv].
  destruct (ValidateStatusChange (Status job0) (NewStatus cmd)) eqn:Hv; [exact Hinv|].
  assert (Hjobs : forall id job,
             <[JobID cmd := set_Status job0 (NewStatus cmd)]> (printJobs f) !! id = Some job ->
             IsValidPrintJobStatus (Status job) = true).
  { intros id job. rewrite lookup_insert. case_decide.
    - intros [= <-]. cbn [Status set_Status].
      eapply legal_transition_valid, ValidateStatusChange_None, Hv.
    - apply Hinv. }
  cbn zeta. destruct (_ && _); [|exact Hjobs].
  cbn. destruct (filaments f !! FilamentID job0); exact Hjobs.
Qed.

Lemma ApplyAll_invariant (P : FSM -> Prop) :
  (forall f log, P f -> P (fst (Apply f log))) ->
  forall logs f, P f -> P (ApplyAll f logs).
Proof.
  intros Hstep logs. unfold ApplyAll.
  induction logs as [|log logs IH]; intros f Hf; cbn; [exact Hf|].
  apply IH, Hstep, Hf.
Qed.

Lemma filaments_exist_reachable (logs : list LogData) :
  Spec.filaments_exist (ApplyAll NewFSM logs).
Proof.
  apply (ApplyAll_invariant Spec.filaments_exist filaments_exist_Apply).
  intros id job. cbn. by rewrite lookup_empty.
Qed.

(** The error branch of Running to Done, at every state that reaches it. *)
Lemma done_without_filament (f : FSM) (cmd : Command) (job : PrintJob) :
  Cmd_Type cmd = UpdatePrintJob ->
  NewStatus cmd = "Done" ->
  printJobs f !! JobID cmd = Some job ->
  Status job = "Running" ->
  filaments f !! FilamentID job = None ->
  Apply f (CommandJSON cmd)
  = (set_printJobs f (<[JobID cmd := set_Status job "Done"]> (printJobs f)),
     Some ("filament with ID " ++ FilamentID job ++ " does not exist")).
Proof.
  intros Hty Hd Hjob Hr Hfl.
  rewrite (Apply_UpdatePrintJob f cmd Hty), Hjob, Hr, Hd, Hfl. reflexivity.
Qed.

(** C9.  There is a state with a running job whose filament is not stored
    in which [UpdatePrintJob] to Done returns an error and has nevertheless
    written Done to the stored job.  In a state where every stored job
    names a stored filament, an [UpdatePrintJob] command never returns the
    missing-filament error, and whenever it returns an error the state is
    as before. *)
Theorem C9_done_without_filament_not_atomic :
  (exists (f : FSM) (cmd : Command) (job : PrintJob) (err : string),
      Cmd_Type cmd = UpdatePrintJob /\ NewStatus cmd = "Done"
      /\ printJobs f !! JobID cmd = Some job /\ Status job = "Running"
      /\ filaments f !! FilamentID job = None
      /\ snd (Apply f (CommandJSON cmd)) = Some err
      /\ Status <$> printJobs (fst (Apply f (CommandJSON cmd))) !! JobID cmd = Some "Done")
  /\ (forall (f : FSM) (cmd : Command),
        Cmd_Type cmd = UpdatePrintJob ->
        Spec.filaments_exist f ->
        (forall filamentID : string,
           snd (Apply f (CommandJSON cmd))
           <> Some ("filament with ID " ++ filamentID ++ " does not exist"))
        /\ (forall err : string,
              snd (Apply f (CommandJSON cmd)) = Some err -> fst (Apply f (CommandJSON cmd)) = f)).
Proof.
  split.
  - exists Scenario.orphaned, (Scenario.update_print_job_command "j1" "Done"),
      (Scenario.orphan "Running").
    eexists.
    rewrite (done_without_filament Scenario.orphaned
               (Scenario.update_print_job_command "j1" "Done")
               (Scenario.orphan "Running") eq_refl eq_refl eq_refl eq_refl eq_refl).
    repeat split.
  - intros f cmd Hty Hinv. rewrite (Apply_UpdatePrintJob f cmd Hty).
    destruct (printJobs f !! JobID cmd) as [job|] eqn:Hjob.
    2:{ split; [intros fid; discriminate | reflexivity]. }
    destruct (ValidateStatusChange (Status job) (NewStatus cmd)) as [e|] eqn:Hv.
    { split; [|reflexivity]. intros fid [= He].
      by apply (illegal_transition_error_not_filament fid e (ValidateStatusChange_Some _ _ _ Hv)). }
    cbn zeta. destruct (Hinv _ _ Hjob) as [fl Hfl]. rewrite Hfl.
    destruct (_ && _); split; intros; discriminate.
Qed.

Lemma C9_done_without_filament_not_atomic_witness :
  (forall filamentID : string,
     snd (Apply Scenario.queued_400 (Scenario.update_print_job "j1" "Done"))
     <> Some ("filament with ID " ++ filamentID ++ " does not exist"))
  /\ (forall err : string,
        snd (Apply Scenario.queued_400 (Scenario.update_print_job "j1" "Done")) = Some err ->
        fst (Apply Scenario.queued_400 (Scenario.update_print_job "j1" "Done"))
        = Scenario.queued_400).
Proof.
  exact (proj2 C9_done_without_filament_not_atomic Scenario.queued_400
           (Scenario.update_print_job_command "j1" "Done") eq_refl
           (filaments_exist_reachable _)).
Defined.

(** C10.  After any sequence of [Apply] calls on the empty state, every
    stored job has one of the statuses Queued, Running, Done, Canceled. *)
Theorem C10_reachable_statuses_valid (logs : list LogData) (id : string) (job : PrintJob) :
  printJobs (ApplyAll NewFSM logs) !! id = Some job ->
  IsValidPrintJobStatus (Status job) = true
  /\ (Status job = "Queued" \/ Status job = "Running"
      \/ Status job = "Done" \/ Status job = "Canceled").
Proof.
  intros Hjob.
  assert (Hv : IsValidPrintJobStatus (Status job) = true).
  { revert id job Hjob. change (Spec.statuses_valid (ApplyAll NewFSM logs)).
    apply (ApplyAll_invariant Spec.statuses_valid statuses_valid_Apply).
    intros id job. cbn. by rewrite lookup_empty. }
  split; [exact Hv|]. unfold IsValidPrintJobStatus in Hv. cbn in Hv.
  destruct (String.eqb_spec (Status job) "Queued"); [auto|].
  destruct (String.eqb_spec (Status job) "Running"); [auto|].
  destruct (String.eqb_spec (Status job) "Done"); [auto|].
  destruct (String.eqb_spec (Status job) "Canceled"); [auto|]. discriminate.
Qed.

Lemma C10_reachable_statuses_valid_witness :
  IsValidPrintJobStatus (Status (Scenario.job "j1" 400 "Running")) = true
  /\ (Status (Scenario.job "j1" 400 "Running") = "Queued"
      \/ Status (Scenario.job "j1" 400 "Running") = "Running"
      \/ Status (Scenario.job "j1" 400 "Running") = "Done"
      \/ Status (Scenario.job "j1" 400 "Running") = "Canceled").
Proof.
  exact (C10_reachable_statuses_valid
           [Scenario.add_printer Scenario.ender; Scenario.add_filament (Scenario.spool 1000);
            Scenario.add_print_job (Scenario.job "j1" 400 "Done");
            Scenario.update_print_job "j1" "Running"]
           "j1" (Scenario.job "j1" 400 "Running") eq_refl).
Defined.

End Invariants.

(** ** Snapshot and restore *)

Section SnapshotRoundTrip.
Import Models FSM.

Variable encode_printers : gmap string Printer -> Json.Value.
Variable decode_printers : Json.Value -> option (gmap string Printer).
Variable encode_filaments : gmap string Filament -> Json.Value.
Variable decode_filaments : Json.Value -> option (gmap string Filament).
Variable encode_printJobs : gmap string PrintJob -> Json.Value.
Variable decode_printJobs : Json.Value -> option (gmap string PrintJob).

Let fields : list (Json.Field fsmSnapshot) :=
  fsmSnapshot_fields encode_printers decode_printers encode_filaments decode_filaments
    encode_printJobs decode_printJobs.
Let persist : fsmSnapshot -> SnapshotSink -> SnapshotSink * option string :=
  Persist encode_printers decode_printers encode_filaments decode_filaments
    encode_printJobs decode_printJobs.
Let restore : FSM -> Stream -> FSM * option string :=
  Restore encode_printers decode_printers encode_filaments decode_filaments
    encode_printJobs decode_printJobs.

(** No field of [fsmSnapshot] is exported. *)
Lemma fsmSnapshot_no_visible_field : Json.visible fields = [].
Proof. reflexivity. Qed.

(** So every snapshot is written as the empty object. *)
Lemma Marshal_fsmSnapshot (s : fsmSnapshot) : Json.Marshal fields s = Json.Object [].
Proof. reflexivity. Qed.

(** And no member of the document that is read is stored. *)
Lemma Unmarshal_fsmSnapshot (members : list (string * Json.Value)) (s : fsmSnapshot) :
  Json.Unmarshal fields (Json.Object members) s = Some s.
Proof.
  cbn [Json.Unmarshal]. induction members as [|[key value] members IH]; [reflexivity|].
  cbn [foldl]. exact IH.
Qed.

Lemma Persist_open_sink (s : fsmSnapshot) :
  persist s open_sink
  = ({| written := [Json.Object []]; write_error := None; close_error := None;
        closed := true; cancelled := false |}, None).
Proof. reflexivity. Qed.

(** Whatever the state, what [Restore] reads back from its snapshot is the
    state without any entry. *)
Lemma Restore_Persist_Snapshot (f f0 : FSM) :
  restore f0 (reopen (fst (persist (Snapshot f) open_sink))) = (NewFSM, None).
Proof. reflexivity. Qed.

(** C1 does not hold of the code.  The state with the one printer [p1] is
    persisted without an error as the empty object, and restoring from it
    succeeds and yields a state in which [p1] is not stored. *)
Theorem C1_snapshot_round_trip_loses_state :
  let sink := fst (persist (Snapshot Scenario.one_printer) open_sink) in
  let restored := fst (restore NewFSM (reopen sink)) in
  snd (persist (Snapshot Scenario.one_printer) open_sink) = None
  /\ written sink = [Json.Object []]
  /\ snd (restore NewFSM (reopen sink)) = None
  /\ printers Scenario.one_printer !! "p1" = Some Scenario.ender
  /\ printers restored !! "p1" = None
  /\ printers restored <> printers Scenario.one_printer.
Proof.
  cbn zeta. rewrite Restore_Persist_Snapshot.
  repeat split.
  intros H. apply (f_equal (lookup "p1")) in H. cbn in H. vm_compute in H. discriminate.
Qed.

End SnapshotRoundTrip.

(** ** Printing and scanning decimal numbers *)

Lemma digits_prefix_string_of_uint (u : Decimal.uint) :
  Go.digits_prefix (NilEmpty.string_of_uint u) = NilEmpty.string_of_uint u.
Proof. induction u; cbn; by rewrite ?IHu. Qed.

Lemma skip_blanks_digit (c : ascii) (r : string) :
  Go.is_digit c = true ->
  Go.skip_blanks (String c r) = String c r
  /\ Go.split_sign (String c r) = (false, String c r).
Proof.
  destruct c as [[] [] [] [] [] [] [] []]; try discriminate; intros _; split; reflexivity.
Qed.

Lemma scan_int_digits (c : ascii) (r : string) (u : Decimal.uint) :
  Go.is_digit c = true ->
  Go.digits_prefix (String c r) = String c r ->
  NilZero.uint_of_string (String c r) = Some u ->
  Go.scan_int (String c r) = Some (Z.of_uint u)
  /\ Go.scan_int (String "-" (String c r)) = Some (- Z.of_uint u).
Proof.
  intros Hc Hd Hu. destruct (skip_blanks_digit c r Hc) as [Hs Hg]. split.
  - unfold Go.scan_int. rewrite Hs, Hg, Hd, Hu. reflexivity.
  - unfold Go.scan_int.
    change (Go.split_sign (Go.skip_blanks (String "-" (String c r))))
      with (true, String c r).
    cbv beta iota. rewrite Hd, Hu. reflexivity.
Qed.

Lemma string_of_uint_head (u : Decimal.uint) :
  u <> Decimal.Nil ->
  exists (c : ascii) (r : string),
    NilZero.string_of_uint u = String c r /\ Go.is_digit c = true.
Proof. destruct u; [done|..]; intros _; cbn; eauto. Qed.

Lemma scan_int_string_of_uint (u : Decimal.uint) :
  u <> Decimal.Nil ->
  Go.scan_int (NilZero.string_of_uint u) = Some (Z.of_uint u)
  /\ Go.scan_int (String "-" (NilZero.string_of_uint u)) = Some (- Z.of_uint u).
Proof.
  intros Hu. destruct (string_of_uint_head u Hu) as (c & r & Hs & Hc).
  pose proof (NilZero.usu u Hu) as Husu.
  assert (Hd : Go.digits_prefix (NilZero.string_of_uint u) = NilZero.string_of_uint u).
  { destruct u; [done|..]; apply digits_prefix_string_of_uint. }
  rewrite Hs in *. by apply scan_int_digits.
Qed.

(** What [%d] prints, [%d] scans. *)
Lemma scan_int_itoa (z : Z) : Go.scan_int (Go.itoa z) = Some z.
Proof.
  unfold Go.itoa. destruct z as [|p|p]; [reflexivity|..]; cbn [Z.to_int NilZero.string_of_int].
  - rewrite (proj1 (scan_int_string_of_uint _ (Unsigned.to_uint_nonnil p))).
    unfold Z.of_uint. by rewrite Unsigned.of_to.
  - rewrite (proj2 (scan_int_string_of_uint _ (Unsigned.to_uint_nonnil p))).
    unfold Z.of_uint. by rewrite Unsigned.of_to.
Qed.

Lemma scan_int64_itoa (z : Z) : Go.in_range z -> Go.scan_int64 (Go.itoa z) = Some z.
Proof.
  unfold Go.in_range, Go.scan_int64. intros [Hl Hu]. rewrite scan_int_itoa.
  destruct (Z.leb_spec Go.min_int z); [|lia]. destruct (Z.leb_spec z Go.max_int); [done|lia].
Qed.

Lemma scan_int64_itoa_Some (z t : Z) : Go.scan_int64 (Go.itoa z) = Some t -> t = z.
Proof.
  unfold Go.scan_int64. rewrite scan_int_itoa. destruct (_ && _); congruence.
Qed.


(** A scanned number has no more digits than the text has bytes. *)
Lemma of_uint_acc_bound (u : Decimal.uint) (acc : positive) :
  Z.pos (Pos.of_uint_acc u acc) < (Z.pos acc + 1) * 10 ^ Z.of_nat (Decimal.nb_digits u).
Proof.
  revert acc. induction u; intros acc; cbn [Pos.of_uint_acc Decimal.nb_digits];
    [cbn; lia|..];
    (eapply Z.lt_le_trans; [apply IHu|]);
    rewrite Nat2Z.inj_succ, Z.pow_succ_r by lia;
    pose proof (Z.pow_pos_nonneg 10 (Z.of_nat (Decimal.nb_digits u)) ltac:(lia) ltac:(lia));
    nia.
Qed.

Lemma of_uint_bound (u : Decimal.uint) :
  0 <= Z.of_uint u < 10 ^ Z.of_nat (Decimal.nb_digits u).
Proof.
  unfold Z.of_uint. split; [lia|].
  induction u; cbn [Pos.of_uint Decimal.nb_digits];
    [cbn; lia|..];
    rewrite Nat2Z.inj_succ, Z.pow_succ_r by lia;
    pose proof (Z.pow_pos_nonneg 10 (Z.of_nat (Decimal.nb_digits u)) ltac:(lia) ltac:(lia));
    [lia|..];
    (pose proof (of_uint_acc_bound u) as Hacc; cbn [Z.of_N];
     match goal with |- Z.pos (Pos.of_uint_acc u ?k) < _ => specialize (Hacc k) end; nia).
Qed.

Lemma length_string_of_uint (u : Decimal.uint) :
  String.length (NilEmpty.string_of_uint u) = Decimal.nb_digits u.
Proof. induction u; cbn; congruence. Qed.

Lemma length_digits_prefix (s : string) :
  (String.length (Go.digits_prefix s) <= String.length s)%nat.
Proof. induction s as [|c s IH]; cbn; [lia|]. destruct (Go.is_digit c); cbn; lia. Qed.

Lemma length_drop_bytes (n : nat) (s : string) :
  String.length (Go.drop_bytes n s) = (String.length s - n)%nat.
Proof. revert s. induction n as [|n IH]; intros [|c s]; cbn; auto. Qed.

Lemma length_skip_blanks (s : string) :
  (String.length (Go.skip_blanks s) <= String.length s)%nat.
Proof.
  unfold Go.skip_blanks. generalize (String.length s) at 1. intros fuel. revert s.
  induction fuel as [|fuel IH]; intros s; cbn [Go.skip_blanks_fuel]; [lia|].
  destruct (Go.blank_width s); [lia|].
  etransitivity; [apply IH|]. rewrite length_drop_bytes. lia.
Qed.

Lemma length_split_sign (s : string) :
  (String.length (snd (Go.split_sign s)) <= String.length s)%nat
  /\ (fst (Go.split_sign s) = true ->
      (S (String.length (snd (Go.split_sign s))) <= String.length s)%nat).
Proof.
  destruct s as [|c s]; [cbn; split; [lia|discriminate]|].
  destruct c as [[] [] [] [] [] [] [] []]; cbn; split; (lia || discriminate).
Qed.

Lemma scan_int_bound (s : string) (z : Z) :
  Go.scan_int s = Some z ->
  - 10 ^ Z.of_nat (Nat.pred (String.length s)) < z < 10 ^ Z.of_nat (String.length s).
Proof.
  unfold Go.scan_int.
  pose proof (length_skip_blanks s) as Hb.
  pose proof (length_split_sign (Go.skip_blanks s)) as [Hs Hneg].
  destruct (Go.split_sign (Go.skip_blanks s)) as [neg s2]. cbn [fst snd] in Hs, Hneg.
  pose proof (length_digits_prefix s2) as Hd.
  destruct (Go.digits_prefix s2) as [|c r] eqn:Htok; [discriminate|].
  destruct (NilZero.uint_of_string (String c r)) as [u|] eqn:Hu; [|discriminate].
  pose proof (NilZero.uint_of_string_nonnil (String c r)) as Hnil. rewrite Hu in Hnil.
  apply NilZero.sus in Hu. assert (Hlen : Decimal.nb_digits u = String.length (String c r)).
  { rewrite <- Hu. destruct u; [done|..]; symmetry; apply length_string_of_uint. }
  pose proof (of_uint_bound u) as Hv. rewrite Hlen in Hv.
  assert (10 ^ Z.of_nat (String.length (String c r)) <= 10 ^ Z.of_nat (String.length s))
    by (apply Z.pow_le_mono_r; lia).
  pose proof (Z.pow_pos_nonneg 10 (Z.of_nat (Nat.pred (String.length s)))
                ltac:(lia) ltac:(lia)).
  destruct neg; intros [= <-]; [|lia].
  specialize (Hneg eq_refl).
  assert (10 ^ Z.of_nat (String.length (String c r))
          <= 10 ^ Z.of_nat (Nat.pred (String.length s)))
    by (apply Z.pow_le_mono_r; lia).
  lia.
Qed.

(** The port arithmetic on a number scanned from four bytes stays within
    [int]. *)
Lemma leader_port_exact (addr : string) (p : Z) :
  (4 <= String.length addr)%nat ->
  Go.scan_int (Go.drop_bytes (String.length addr - 4) addr) = Some p ->
  Go.add Transport.httpPort (Go.sub p Transport.raftPort) = 8000 + (p - 7000)
  /\ 0 < 8000 + (p - 7000) < 11000.
Proof.
  intros Hlen Hp. apply scan_int_bound in Hp. rewrite length_drop_bytes in Hp.
  replace (String.length addr - (String.length addr - 4))%nat with 4%nat in Hp by lia.
  change (10 ^ Z.of_nat 4) with 10000 in Hp.
  change (10 ^ Z.of_nat (Nat.pred 4)) with 1000 in Hp.
  unfold Go.add, Go.sub, Transport.httpPort, Transport.raftPort.
  rewrite (wrap_id (p - 7000)) by (unfold Go.in_range, Go.min_int, Go.max_int; lia).
  rewrite wrap_id by (unfold Go.in_range, Go.min_int, Go.max_int; lia). lia.
Qed.

(** ** Forwarding to the leader *)

Section Forwarding.
Import Transport.

Variable request_error : string -> string -> option string.

(** C7, as the code has it.  On a node that is the leader the call returns
    the pair of [nil]s at once and touches no network.  On a node that is
    not, with no leader address known, it returns the no-leader error and
    touches no network.  With a leader address of four bytes or more: when
    the last four bytes do not scan as a decimal number the call returns a
    parse error and touches no network; when they scan as the port [p] and
    the request can be built, exactly one request is handed to the HTTP
    client, with the caller's method, for the path on [localhost] at the
    HTTP port [8000 + (p - 7000)]. *)
Theorem C7_forward_to_leader (node : Node) (method path : string) (body : option string) :
  let outcome := ForwardToLeader request_error node method path body in
  (Leader node = true ->
   outcome = Return None None /\ network_calls outcome = [])
  /\ (Leader node = false -> LeaderAddress node = "" ->
      outcome = Return None (Some NoLeaderAvailable) /\ network_calls outcome = [])
  /\ (Leader node = false -> LeaderAddress node <> "" ->
      (4 <= String.length (LeaderAddress node))%nat ->
      let suffix := Go.drop_bytes (String.length (LeaderAddress node) - 4) (LeaderAddress node) in
      (Go.scan_int suffix = None ->
       outcome = Return None (Some (ParseLeaderPort suffix)) /\ network_calls outcome = [])
      /\ (forall p : Z,
            Go.scan_int suffix = Some p ->
            request_error method (leaderHTTPAddr p ++ path) = None ->
            exists req : Request,
              outcome = ClientDo req receive
              /\ network_calls outcome = [req]
              /\ Method req = method
              /\ URL req = "http://localhost:" ++ Go.itoa (8000 + (p - 7000)) ++ path
              /\ 0 < 8000 + (p - 7000) < 11000)).
Proof.
  cbn zeta. unfold ForwardToLeader. split; [|split].
  - intros ->. done.
  - intros -> ->. done.
  - intros -> Hne Hlen.
    destruct (String.eqb_spec (LeaderAddress node) "") as [He|_]; [done|].
    destruct (Nat.ltb_spec (String.length (LeaderAddress node)) 4) as [Hlt|_]; [lia|].
    split.
    + intros ->. done.
    + intros p Hp. destruct (leader_port_exact _ p Hlen Hp) as [Hport Hrange].
      rewrite Hp. intros ->. eexists. split; [reflexivity|]. cbn. split; [done|].
      split; [done|]. split; [|exact Hrange].
      unfold leaderHTTPAddr. rewrite Hport. reflexivity.
Qed.

End Forwarding.

Lemma C7_forward_to_leader_witness :
  exists req : Transport.Request,
    Transport.ForwardToLeader (fun _ _ => None)
      {| Transport.Leader := false; Transport.LeaderAddress := "localhost:7001" |}
      "POST" "/api/v1/printers" (Some "{}")
    = Transport.ClientDo req Transport.receive
    /\ Transport.network_calls
         (Transport.ForwardToLeader (fun _ _ => None)
            {| Transport.Leader := false; Transport.LeaderAddress := "localhost:7001" |}
            "POST" "/api/v1/printers" (Some "{}"))
       = [req]
    /\ Transport.Method req = "POST"
    /\ Transport.URL req
       = "http://localhost:" ++ Go.itoa (8000 + (7001 - 7000)) ++ "/api/v1/printers"
    /\ 0 < 8000 + (7001 - 7000) < 11000.
Proof.
  refine (proj2 (proj2 (proj2 (C7_forward_to_leader (fun _ _ => None)
            {| Transport.Leader := false; Transport.LeaderAddress := "localhost:7001" |}
            "POST" "/api/v1/printers" (Some "{}"))) eq_refl _ _) 7001 eq_refl eq_refl).
  - discriminate.
  - cbn. lia.
Defined.

(** C7 fails as it is stated.  A node that is not the leader knows the
    leader under the address [localhost:443]: the last four bytes do not
    scan as a number, and the call returns a parse error without issuing a
    request.  Under the address [:80], of three bytes, the slice of the
    last four bytes is out of range and the call panics. *)
Lemma C7_counterexample :
  Transport.ForwardToLeader (fun _ _ => None)
    {| Transport.Leader := false; Transport.LeaderAddress := "localhost:443" |}
    "POST" "/api/v1/printers" (Some "{}")
  = Transport.Return None (Some (Transport.ParseLeaderPort ":443"))
  /\ Transport.network_calls
       (Transport.ForwardToLeader (fun _ _ => None)
          {| Transport.Leader := false; Transport.LeaderAddress := "localhost:443" |}
          "POST" "/api/v1/printers" (Some "{}"))
     = []
  /\ Transport.ForwardToLeader (fun _ _ => None)
       {| Transport.Leader := false; Transport.LeaderAddress := ":80" |}
       "POST" "/api/v1/printers" (Some "{}")
     = Transport.Panic "slice bounds out of range".
Proof. repeat split. Qed.

(** ** The directory of the store *)

Section Directory.
Import Store.

Lemma compare_Eq_eqb (a b : string) :
  String.eqb b a = match String.compare a b with Eq => true | _ => false end.
Proof.
  destruct (String.compare a b) eqn:Hc.
  - apply String.compare_eq_iff in Hc. subst. apply String.eqb_refl.
  - apply String.eqb_neq. intros ->.
    pose proof (String.compare_antisym a a) as H. rewrite Hc in H. discriminate.
  - apply String.eqb_neq. intros ->.
    pose proof (String.compare_antisym a a) as H. rewrite Hc in H. discriminate.
Qed.

Lemma read_file_write_file (name content other : string) (d : Dir) :
  read_file other (write_file name content d)
  = if String.eqb name other then Some content else read_file other d.
Proof.
  induction d as [|[n c] d IH]; cbn.
  - done.
  - pose proof (compare_Eq_eqb name n) as Hn.
    destruct (String.compare name n); cbn.
    + apply String.eqb_eq in Hn. subst n.
      destruct (String.eqb name other); done.
    + done.
    + rewrite IH. destruct (String.eqb_spec n other) as [->|]; [|done].
      destruct (String.eqb_spec name other) as [->|]; [|done].
      by rewrite String.eqb_refl in Hn.
Qed.



Lemma read_file_elem_of (name content : string) (d : Dir) :
  read_file name d = Some content -> name ∈ List.map fst d.
Proof.
  induction d as [|[n c] d IH]; cbn; [done|].
  destruct (String.eqb_spec n name) as [->|]; rewrite elem_of_cons; auto.
Qed.

End Directory.

(** ** The names of the snapshot files *)

Section SnapshotNames.
Import Store.





End SnapshotNames.

(** ** The two modes of the store *)

Section StoreModes.
Import Store.







End StoreModes.



(** * More of the state machine *)

Section ApplyMore.
Import Models FSM.


(** A command that is answered with an error leaves the state as it was,
    in every state in which the stored jobs name stored filaments. *)
Lemma Apply_error_unchanged (f : FSM) (log : LogData) :
  Spec.filaments_exist f ->
  snd (Apply f log) <> None -> fst (Apply f log) = f.
Proof.
  intros Hinv. destruct log as [err|cmd]; [done|]. unfold Apply.
  destruct (String.eqb (Cmd_Type cmd) AddPrinter).
  { by destruct (Cmd_Printer cmd). }
  destruct (String.eqb (Cmd_Type cmd) AddFilament).
  { by destruct (Cmd_Filament cmd). }
  destruct (String.eqb (Cmd_Type cmd) AddPrintJob).
  { destruct (Cmd_PrintJob cmd) as [pj|]; [|done].
    destruct (printers f !! PrinterID pj); [|done].
    destruct (filaments f !! FilamentID pj); [|done].
    cbn zeta. by destruct (_ <? _). }
  destruct (String.eqb (Cmd_Type cmd) UpdatePrintJob); [|done].
  destruct (printJobs f !! JobID cmd) as [job|] eqn:Hjob; [|done].
  destruct (ValidateStatusChange (Status job) (NewStatus cmd)); [done|].
  cbn zeta. destruct (Hinv _ _ Hjob) as [fl Hfl]. cbn. rewrite Hfl.
  by destruct (_ && _).
Qed.

(** X2.  In every state reached from the empty one, a log entry that
    [Apply] answers with an error, whatever the entry (bytes that are not a
    command, a command without its payload, a command of an unknown type, a
    job that is refused, an update that is refused), leaves the three maps
    as they were. *)
Theorem X2_refused_entry_changes_nothing (logs : list LogData) (log : LogData) :
  snd (Apply (ApplyAll NewFSM logs) log) <> None ->
  fst (Apply (ApplyAll NewFSM logs) log) = ApplyAll NewFSM logs.
Proof. apply Apply_error_unchanged, filaments_exist_reachable. Qed.

End ApplyMore.

Lemma X2_refused_entry_changes_nothing_witness :
  fst (FSM.Apply (FSM.ApplyAll FSM.NewFSM [Scenario.add_printer Scenario.ender])
         (Scenario.add_print_job (Scenario.job "j1" 100 "")))
  = FSM.ApplyAll FSM.NewFSM [Scenario.add_printer Scenario.ender].
Proof.
  apply (X2_refused_entry_changes_nothing [Scenario.add_printer Scenario.ender]
           (Scenario.add_print_job (Scenario.job "j1" 100 ""))).
  vm_compute. discriminate.
Defined.


(** * What every reachable state satisfies, continued *)

Section Reachable.
Import Models FSM.

Lemma keyed_by_id_Apply (f : FSM) (log : LogData) :
  Ledger.keyed_by_id f -> Ledger.keyed_by_id (fst (Apply f log)).
Proof.
  intros (Hp & Hf & Hj). destruct log as [err|cmd]; [done|]. unfold Apply.
  destruct (String.eqb (Cmd_Type cmd) AddPrinter).
  { destruct (Cmd_Printer cmd) as [p|]; [|done]. repeat split; try done.
    intros k p'. cbn. rewrite lookup_insert. case_decide; [by intros [= <-]|apply Hp]. }
  destruct (String.eqb (Cmd_Type cmd) AddFilament).
  { destruct (Cmd_Filament cmd) as [fl|]; [|done]. repeat split; try done.
    intros k fl'. cbn. rewrite lookup_insert. case_decide; [by intros [= <-]|apply Hf]. }
  destruct (String.eqb (Cmd_Type cmd) AddPrintJob).
  { destruct (Cmd_PrintJob cmd) as [pj|]; [|done].
    destruct (printers f !! PrinterID pj); [|done].
    destruct (filaments f !! FilamentID pj); [|done].
    cbn zeta. destruct (_ <? _); [done|]. repeat split; try done.
    intros k job. cbn. rewrite lookup_insert. case_decide; [by intros [= <-]|apply Hj]. }
  destruct (String.eqb (Cmd_Type cmd) UpdatePrintJob); [|done].
  destruct (printJobs f !! JobID cmd) as [job0|] eqn:Hjob0; [|done].
  destruct (ValidateStatusChange (Status job0) (NewStatus cmd)); [done|].
  assert (Hjobs : forall k job,
             <[JobID cmd := set_Status job0 (NewStatus cmd)]> (printJobs f) !! k = Some job ->
             ID job = k).
  { intros k job. rewrite lookup_insert. case_decide.
    - intros [= <-]. cbn. subst k. by apply Hj.
    - apply Hj. }
  cbn zeta. destruct (_ && _); [|done].
  cbn. destruct (filaments f !! FilamentID job0) as [fl|] eqn:Hfl; [|done].
  repeat split; try done.
  intros k fl'. cbn. rewrite lookup_insert. case_decide.
  - intros [= <-]. cbn. subst k. by apply Hf.
  - apply Hf.
Qed.

(** X3.  In every state reached from the empty one, each printer, each
    filament and each print job is stored under its own id: what is looked
    up under an id carries that id. *)
Theorem X3_entries_stored_under_their_id (logs : list LogData) :
  Ledger.keyed_by_id (ApplyAll NewFSM logs).
Proof.
  apply (ApplyAll_invariant Ledger.keyed_by_id keyed_by_id_Apply).
  repeat split; intros k x; cbn; by rewrite lookup_empty.
Qed.

(** X5.  [Apply] removes nothing: every id under which a printer, a
    filament or a print job is stored before the call is one under which
    an entry is stored after it, whatever the log entry and whatever the
    result. *)
Theorem X5_apply_removes_nothing (f : FSM) (log : LogData) :
  dom (printers f) ⊆ dom (printers (fst (Apply f log)))
  /\ dom (filaments f) ⊆ dom (filaments (fst (Apply f log)))
  /\ dom (printJobs f) ⊆ dom (printJobs (fst (Apply f log))).
Proof.
  destruct log as [err|cmd]; [done|]. unfold Apply.
  destruct (String.eqb (Cmd_Type cmd) AddPrinter).
  { destruct (Cmd_Printer cmd) as [p|]; [|done]. repeat split; try done.
    cbn. apply dom_insert_subseteq. }
  destruct (String.eqb (Cmd_Type cmd) AddFilament).
  { destruct (Cmd_Filament cmd) as [fl|]; [|done]. repeat split; try done.
    cbn. apply dom_insert_subseteq. }
  destruct (String.eqb (Cmd_Type cmd) AddPrintJob).
  { destruct (Cmd_PrintJob cmd) as [pj|]; [|done].
    destruct (printers f !! PrinterID pj); [|done].
    destruct (filaments f !! FilamentID pj); [|done].
    cbn zeta. destruct (_ <? _); [done|]. repeat split; try done.
    cbn. apply dom_insert_subseteq. }
  destruct (String.eqb (Cmd_Type cmd) UpdatePrintJob); [|done].
  destruct (printJobs f !! JobID cmd) as [job0|] eqn:Hjob0; [|done].
  destruct (ValidateStatusChange (Status job0) (NewStatus cmd)); [done|].
  cbn zeta. destruct (_ && _).
  - cbn. destruct (filaments f !! FilamentID job0) as [fl|] eqn:Hfl; cbn;
      repeat split; try done; apply dom_insert_subseteq.
  - cbn. repeat split; try done. apply dom_insert_subseteq.
Qed.

Lemma printers_exist_Apply (f : FSM) (log : LogData) :
  (forall id job, printJobs f !! id = Some job -> is_Some (printers f !! PrinterID job)) ->
  forall id job, printJobs (fst (Apply f log)) !! id = Some job ->
                 is_Some (printers (fst (Apply f log)) !! PrinterID job).
Proof.
  intros Hinv. destruct log as [err|cmd]; [exact Hinv|]. unfold Apply.
  destruct (String.eqb (Cmd_Type cmd) AddPrinter).
  { destruct (Cmd_Printer cmd) as [p|]; [|exact Hinv].
    intros id job Hjob. cbn in *. rewrite lookup_insert.
    case_decide; [eauto | by eapply Hinv]. }
  destruct (String.eqb (Cmd_Type cmd) AddFilament).
  { destruct (Cmd_Filament cmd); exact Hinv. }
  destruct (String.eqb (Cmd_Type cmd) AddPrintJob).
  { destruct (Cmd_PrintJob cmd) as [pj|]; [|exact Hinv].
    destruct (printers f !! PrinterID pj) as [p|] eqn:Hp; [|exact Hinv].
    destruct (filaments f !! FilamentID pj); [|exact Hinv].
    cbn zeta. destruct (_ <? _); [exact Hinv|].
    intros id job. cbn. rewrite lookup_insert. case_decide.
    - intros [= <-]. cbn. rewrite Hp. eauto.
    - apply Hinv. }
  destruct (String.eqb (Cmd_Type cmd) UpdatePrintJob); [|exact Hinv].
  destruct (printJobs f !! JobID cmd) as [job0|] eqn:Hjob0; [|exact Hinv].
  destruct (ValidateStatusChange (Status job0) (NewStatus cmd)); [exact Hinv|].
  assert (Hjobs : forall id job,
             <[JobID cmd := set_Status job0 (NewStatus cmd)]> (printJobs f) !! id = Some job ->
             is_Some (printers f !! PrinterID job)).
  { intros id job. rewrite lookup_insert. case_decide.
    - intros [= <-]. cbn. by eapply Hinv.
    - apply Hinv. }
  cbn zeta. destruct (_ && _); [|exact Hjobs].
  cbn. destruct (filaments f !! FilamentID job0); exact Hjobs.
Qed.

(** X4.  In every state reached from the empty one, every stored print job
    names a printer and a filament that are stored: a parent, once there,
    is never taken away from under a job. *)
Theorem X4_jobs_name_stored_parents (logs : list LogData) :
  Ledger.parents_exist (ApplyAll NewFSM logs).
Proof.
  intros id job Hjob. split.
  - revert id job Hjob.
    apply (ApplyAll_invariant
             (fun f => forall id job, printJobs f !! id = Some job ->
                                      is_Some (printers f !! PrinterID job))
             printers_exist_Apply).
    intros id job. cbn. by rewrite lookup_empty.
  - by apply (filaments_exist_reachable logs id job).
Qed.

End Reachable.

(** * The ledger of reserved filament *)

Section LedgerProofs.
Import Models FSM.

Lemma reserved_insert_fresh (m : gmap string PrintJob) (filamentID id : string) (job : PrintJob) :
  m !! id = None ->
  Spec.reserved (<[id := job]> m) filamentID = Spec.reserved m filamentID + Ledger.share filamentID job.
Proof.
  intros Hid. unfold Spec.reserved. rewrite map_fold_insert_L; [|intros|done].
  - unfold Ledger.share. destruct (Spec.active filamentID job); lia.
  - destruct (Spec.active filamentID z1); destruct (Spec.active filamentID z2); lia.
Qed.

Lemma reserved_delete (m : gmap string PrintJob) (filamentID id : string) (job : PrintJob) :
  m !! id = Some job ->
  Spec.reserved m filamentID = Spec.reserved (delete id m) filamentID + Ledger.share filamentID job.
Proof.
  intros Hid. rewrite <- (insert_delete_id m id job Hid) at 1.
  apply reserved_insert_fresh, lookup_delete_eq.
Qed.

Lemma reserved_insert (m : gmap string PrintJob) (filamentID id : string) (job : PrintJob) :
  Spec.reserved (<[id := job]> m) filamentID
  = Spec.reserved (delete id m) filamentID + Ledger.share filamentID job.
Proof.
  rewrite <- (insert_delete_eq m id job). apply reserved_insert_fresh, lookup_delete_eq.
Qed.

Lemma reserved_nonneg (m : gmap string PrintJob) (filamentID : string) :
  (forall id job, m !! id = Some job -> 0 <= PrintWeightInGrams job) ->
  0 <= Spec.reserved m filamentID.
Proof.
  unfold Spec.reserved.
  apply (map_fold_weak_ind
           (fun (r : Z) (m : gmap string PrintJob) =>
              (forall id job, m !! id = Some job -> 0 <= PrintWeightInGrams job) -> 0 <= r)).
  - lia.
  - intros i x m' r Hi IH Hm.
    assert (0 <= r).
    { apply IH. intros id job Hjob. apply (Hm id). rewrite lookup_insert_ne; [done|].
      intros ->. rewrite Hi in Hjob. discriminate. }
    pose proof (Hm i x (lookup_insert_eq _ _ _)).
    destruct (Spec.active filamentID x); lia.
Qed.

Lemma reserved_unnamed (m : gmap string PrintJob) (filamentID : string) :
  (forall id job, m !! id = Some job -> FilamentID job <> filamentID) ->
  Spec.reserved m filamentID = 0.
Proof.
  unfold Spec.reserved.
  apply (map_fold_weak_ind
           (fun (r : Z) (m : gmap string PrintJob) =>
              (forall id job, m !! id = Some job -> FilamentID job <> filamentID) -> r = 0)).
  - done.
  - intros i x m' r Hi IH Hm.
    assert (r = 0) as ->.
    { apply IH. intros id job Hjob. apply (Hm id). rewrite lookup_insert_ne; [done|].
      intros ->. rewrite Hi in Hjob. discriminate. }
    pose proof (Hm i x (lookup_insert_eq _ _ _)) as Hx. unfold Spec.active.
    destruct (String.eqb_spec (FilamentID x) filamentID); [done|]. reflexivity.
Qed.

Lemma reserved_delete_le (m : gmap string PrintJob) (filamentID id : string) :
  (forall id job, m !! id = Some job -> 0 <= PrintWeightInGrams job) ->
  0 <= Spec.reserved (delete id m) filamentID <= Spec.reserved m filamentID.
Proof.
  intros Hm. split.
  - apply reserved_nonneg. intros i job Hjob. apply (Hm i).
    apply lookup_delete_Some in Hjob. tauto.
  - destruct (m !! id) as [job|] eqn:Hid.
    + rewrite (reserved_delete m filamentID id job Hid). pose proof (Hm id job Hid).
      unfold Ledger.share. destruct (Spec.active filamentID job); lia.
    + rewrite delete_id; [lia|done].
Qed.

Lemma share_set_Status_le (filamentID : string) (job : PrintJob) (new : string) :
  0 <= PrintWeightInGrams job ->
  ValidateStatusChange (Status job) new = None ->
  0 <= Ledger.share filamentID (set_Status job new) <= Ledger.share filamentID job.
Proof.
  intros Hw Hv. apply ValidateStatusChange_None in Hv. unfold Ledger.share, Spec.active. cbn.
  destruct (String.eqb (FilamentID job) filamentID); cbn; [|lia].
  destruct Hv as [[-> ->]|[[-> ->]|[[-> ->]|[-> ->]]]]; cbn; lia.
Qed.

Lemma in_order_Apply (f : FSM) (log : LogData) :
  Spec.filaments_exist f -> Ledger.in_order f -> Ledger.careful f log = true ->
  Ledger.in_order (fst (Apply f log)).
Proof.
  intros Hex [Hw Hst] Hcareful. destruct log as [err|cmd]; [done|].
  unfold Ledger.careful in Hcareful. unfold Apply.
  destruct (String.eqb (Cmd_Type cmd) AddPrinter) eqn:Hty1.
  { destruct (Cmd_Printer cmd); done. }
  destruct (String.eqb (Cmd_Type cmd) AddFilament).
  { destruct (Cmd_Filament cmd) as [fl|]; [|done].
    destruct (filaments f !! Filament_ID fl) eqn:Hfresh; [discriminate|].
    apply andb_prop in Hcareful as [Hlo%Z.leb_le Hhi%Z.leb_le].
    split; [exact Hw|]. intros fid fl'. cbn. rewrite lookup_insert. case_decide.
    - intros [= <-]. subst fid. rewrite reserved_unnamed; [lia|].
      intros id job Hjob Heq. destruct (Hex id job Hjob) as [x Hx]. congruence.
    - apply Hst. }
  destruct (String.eqb (Cmd_Type cmd) AddPrintJob).
  { destruct (Cmd_PrintJob cmd) as [pj|]; [|done]. apply Z.leb_le in Hcareful.
    destruct (printers f !! PrinterID pj); [|done].
    destruct (filaments f !! FilamentID pj) as [fl|] eqn:Hfl; [|done].
    cbn zeta. destruct (Hst _ _ Hfl) as [[Hr0 Hr1] Hr2].
    rewrite availableWeight_reserved by (unfold Go.in_range, Go.min_int; lia).
    destruct (Z.ltb_spec (RemainingWeightInGrams fl - Spec.reserved (printJobs f) (FilamentID pj))
                (PrintWeightInGrams pj)) as [|Hfits]; [done|].
    split; cbn.
    - intros id job. rewrite lookup_insert. case_decide; [by intros [= <-]|apply Hw].
    - intros fid fl' Hfl'. destruct (Hst _ _ Hfl') as [[Hs0 Hs1] Hs2].
      rewrite reserved_insert. pose proof (reserved_delete_le _ fid (ID pj) Hw).
      unfold Ledger.share, Spec.active. cbn.
      destruct (String.eqb_spec (FilamentID pj) fid) as [<-|]; cbn; [|lia].
      rewrite Hfl in Hfl'. injection Hfl' as <-. lia. }
  destruct (String.eqb (Cmd_Type cmd) UpdatePrintJob); [|done].
  destruct (printJobs f !! JobID cmd) as [job0|] eqn:Hjob0; [|done].
  destruct (ValidateStatusChange (Status job0) (NewStatus cmd)) eqn:Hv; [done|].
  pose proof (Hw _ _ Hjob0) as Hw0.
  assert (Hjobs : forall id job,
             <[JobID cmd := set_Status job0 (NewStatus cmd)]> (printJobs f) !! id = Some job ->
             0 <= PrintWeightInGrams job).
  { intros id job. rewrite lookup_insert. case_decide; [by intros [= <-]|apply Hw]. }
  assert (Hres : forall fid,
             0 <= Spec.reserved (<[JobID cmd := set_Status job0 (NewStatus cmd)]> (printJobs f)) fid
             <= Spec.reserved (printJobs f) fid).
  { intros fid. rewrite reserved_insert, (reserved_delete _ fid _ _ Hjob0).
    pose proof (share_set_Status_le fid job0 _ Hw0 Hv).
    pose proof (reserved_delete_le _ fid (JobID cmd) Hw). lia. }
  cbn zeta. destruct (String.eqb_spec (Status job0) "Running") as [Hrun|];
    destruct (String.eqb_spec (NewStatus cmd) "Done") as [Hdone|]; cbn [andb].
  2-4: (split; [exact Hjobs|]; intros fid fl Hfl; cbn in *;
        destruct (Hst _ _ Hfl) as [[? ?] ?]; specialize (Hres fid); lia).
  destruct (Hex _ _ Hjob0) as [fl0 Hfl0]. cbn. rewrite Hfl0.
  split; cbn; [exact Hjobs|]. intros fid fl. rewrite lookup_insert. case_decide.
  - intros [= <-]. subst fid. cbn. destruct (Hst _ _ Hfl0) as [[Hs0 Hs1] Hs2].
    rewrite reserved_insert. rewrite (reserved_delete _ (FilamentID job0) _ _ Hjob0) in Hs1.
    pose proof (reserved_delete_le _ (FilamentID job0) (JobID cmd) Hw) as [Hd0 Hd1].
    assert (Hshare : Ledger.share (FilamentID job0) job0 = PrintWeightInGrams job0).
    { unfold Ledger.share, Spec.active. rewrite String.eqb_refl, Hrun. reflexivity. }
    assert (Hshare' : Ledger.share (FilamentID job0) (set_Status job0 (NewStatus cmd)) = 0).
    { unfold Ledger.share, Spec.active. cbn. rewrite Hdone. cbn. by rewrite andb_false_r. }
    rewrite Hshare in Hs1. rewrite Hshare'. unfold Go.sub.
    rewrite wrap_id by (unfold Go.in_range, Go.min_int; lia).
    destruct (Z.ltb_spec (RemainingWeightInGrams fl0 - PrintWeightInGrams job0) 0); lia.
  - intros Hfl. destruct (Hst _ _ Hfl) as [[? ?] ?]. specialize (Hres fid). lia.
Qed.

End LedgerProofs.

Lemma careful_log_in_order (logs : list FSM.LogData) (f : FSM.FSM) :
  Spec.filaments_exist f -> Ledger.in_order f -> Ledger.careful_log f logs = true ->
  Ledger.in_order (FSM.ApplyAll f logs).
Proof.
  revert f. unfold FSM.ApplyAll.
  induction logs as [|log logs IH]; intros f Hex Hin Hlog; cbn in *; [exact Hin|].
  apply andb_prop in Hlog as [Hc Hrest].
  apply IH; [by apply filaments_exist_Apply | by apply in_order_Apply | exact Hrest].
Qed.

(** X6.  No filament is booked twice.  Along a log, applied to the empty
    state, in which every filament is entered once with a remaining weight
    between 0 and the largest [int] and every print job asks for a weight
    that is not negative, whatever else the log holds and whatever [Apply]
    answers: the weights that the queued and running jobs ask of a
    filament sum to no more than the weight that remains of it, and no
    remaining weight is negative. *)
Theorem X6_careful_log_never_overbooks (logs : list FSM.LogData) :
  Ledger.careful_log FSM.NewFSM logs = true ->
  Ledger.in_order (FSM.ApplyAll FSM.NewFSM logs).
Proof.
  apply careful_log_in_order.
  - intros id job. cbn. by rewrite lookup_empty.
  - split; intros k x; cbn; by rewrite lookup_empty.
Qed.

Lemma X6_careful_log_never_overbooks_witness :
  Ledger.in_order (FSM.ApplyAll FSM.NewFSM Scenario.accounting_log).
Proof. exact (X6_careful_log_never_overbooks Scenario.accounting_log eq_refl). Defined.

(** * The end of a job *)

Section FinalStatus.
Import Models FSM.

Lemma final_job_Apply (f : FSM) (id : string) (job : PrintJob) (log : LogData) :
  printJobs f !! id = Some job ->
  Status job = "Done" \/ Status job = "Canceled" ->
  Ledger.adds_job id log = false ->
  printJobs (fst (Apply f log)) !! id = Some job.
Proof.
  intros Hjob Hfinal Hadds. destruct log as [err|cmd]; [done|]. unfold Apply.
  destruct (String.eqb (Cmd_Type cmd) AddPrinter).
  { by destruct (Cmd_Printer cmd). }
  destruct (String.eqb (Cmd_Type cmd) AddFilament).
  { by destruct (Cmd_Filament cmd). }
  cbn [Ledger.adds_job] in Hadds.
  destruct (String.eqb (Cmd_Type cmd) AddPrintJob).
  { destruct (Cmd_PrintJob cmd) as [pj|]; [|done].
    destruct (printers f !! PrinterID pj); [|done].
    destruct (filaments f !! FilamentID pj); [|done].
    cbn zeta. destruct (_ <? _); [done|]. cbn in *.
    apply String.eqb_neq in Hadds. by rewrite lookup_insert_ne. }
  destruct (String.eqb (Cmd_Type cmd) UpdatePrintJob); [|done].
  destruct (String.eqb_spec (JobID cmd) id) as [->|Hne].
  - rewrite Hjob. by destruct Hfinal as [-> | ->].
  - destruct (printJobs f !! JobID cmd) as [other|]; [|done].
    destruct (ValidateStatusChange (Status other) (NewStatus cmd)); [done|].
    cbn zeta.
    destruct (String.eqb (Status other) "Running" && String.eqb (NewStatus cmd) "Done").
    + cbn [filaments set_printJobs].
      destruct (filaments f !! FilamentID (set_Status other (NewStatus cmd)));
        cbn; by rewrite lookup_insert_ne.
    + cbn. by rewrite lookup_insert_ne.
Qed.

(** X24.  Done and Canceled are final.  A stored job whose status is Done
    or Canceled stays as it is, field by field, along every log that holds
    no [AddPrintJob] command for its id, whatever else the log holds; and
    every [UpdatePrintJob] command for it, whatever the status it asks for,
    is then refused with the invalid-transition error and changes
    nothing. *)
Theorem X24_done_and_canceled_are_final
    (f : FSM) (id : string) (job : PrintJob) (logs : list LogData) :
  printJobs f !! id = Some job ->
  Status job = "Done" \/ Status job = "Canceled" ->
  forallb (fun log => negb (Ledger.adds_job id log)) logs = true ->
  printJobs (ApplyAll f logs) !! id = Some job
  /\ forall cmd : Command,
       Cmd_Type cmd = UpdatePrintJob -> JobID cmd = id ->
       Apply (ApplyAll f logs) (CommandJSON cmd)
       = (ApplyAll f logs, Some "invalid status transition").
Proof.
  intros Hjob Hfinal Hlogs.
  assert (Hkept : printJobs (ApplyAll f logs) !! id = Some job).
  { unfold ApplyAll. revert f Hjob. induction logs as [|log logs IH]; intros f Hjob; [done|].
    cbn [forallb] in Hlogs. apply andb_prop in Hlogs as [Hlog Hlogs].
    cbn [foldl]. apply IH; [done|]. apply final_job_Apply; [done..|].
    by apply negb_true_iff. }
  split; [done|]. intros cmd Htype <-.
  rewrite (Apply_UpdatePrintJob _ _ Htype), Hkept.
  by destruct Hfinal as [-> | ->].
Qed.

Lemma X24_done_and_canceled_are_final_witness :
  printJobs
    (ApplyAll (ApplyAll NewFSM Scenario.accounting_log)
       [Scenario.update_print_job "j1" "Running";
        Scenario.add_print_job (Scenario.job "j4" 100 "")])
  !! "j1"
  = Some (set_Status (Scenario.job "j1" 400 "") "Done").
Proof.
  apply (X24_done_and_canceled_are_final (ApplyAll NewFSM Scenario.accounting_log) "j1"
           (set_Status (Scenario.job "j1" 400 "") "Done")
           [Scenario.update_print_job "j1" "Running";
            Scenario.add_print_job (Scenario.job "j4" 100 "")]).
  - vm_compute. reflexivity.
  - left. reflexivity.
  - vm_compute. reflexivity.
Defined.

End FinalStatus.

(** * The read accessors *)

Section ReadsProofs.
Import Models FSM Reads.

Lemma snoc_loop {A B : Type} (g : A -> B) (l : list A) (acc : list B) :
  foldl (fun out x => (out ++ [g x])%list) acc l = (acc ++ List.map g l)%list.
Proof.
  revert acc. induction l as [|x l IH]; intros acc; cbn; [by rewrite app_nil_r|].
  rewrite IH. by rewrite <- app_assoc.
Qed.

Lemma GetPrintJobs_values (visited : list (string * PrintJob)) :
  GetPrintJobs visited = List.map snd visited.
Proof. unfold GetPrintJobs. by rewrite (snoc_loop snd). Qed.

Lemma by_status_loop (status : string) (l : list (string * PrintJob)) (acc : list PrintJob) :
  foldl (fun jobs entry =>
           if String.eqb (Status (snd entry)) status then (jobs ++ [snd entry])%list else jobs)
        acc l
  = (acc ++ List.filter (fun job => String.eqb (Status job) status) (List.map snd l))%list.
Proof.
  revert acc. induction l as [|[k job] l IH]; intros acc; cbn; [by rewrite app_nil_r|].
  rewrite IH. destruct (String.eqb (Status job) status); [|done]. by rewrite <- app_assoc.
Qed.

Lemma GetPrintJobsByStatus_filter (visited : list (string * PrintJob)) (status : string) :
  GetPrintJobsByStatus visited status
  = List.filter (fun job => String.eqb (Status job) status) (GetPrintJobs visited).
Proof. unfold GetPrintJobsByStatus. by rewrite by_status_loop, GetPrintJobs_values. Qed.

Lemma visits_elem_of {V : Type} (m : gmap string V) (visited : list (string * V)) (x : V) :
  visits m visited -> x ∈ List.map snd visited <-> exists id, m !! id = Some x.
Proof.
  intros Hv. rewrite list_elem_of_In, in_map_iff. split.
  - intros ([id y] & <- & Hin). exists id. apply elem_of_map_to_list.
    rewrite <- Hv. by apply list_elem_of_In.
  - intros [id Hid]. exists (id, x). split; [done|]. apply list_elem_of_In.
    rewrite Hv. by apply elem_of_map_to_list.
Qed.

(** X7.  In whatever order the loops visit the job map: [GetPrintJobs]
    returns as many jobs as are stored, and a job is in its result exactly
    when it is stored; a job is in the result of [GetPrintJobsByStatus]
    exactly when it is stored and has the status asked for, and that result
    is the result of [GetPrintJobs] with the other jobs left out, the order
    kept. *)
Theorem X7_job_lists (f : FSM) (visited : list (string * PrintJob)) :
  visits (printJobs f) visited ->
  length (GetPrintJobs visited) = size (printJobs f)
  /\ (forall job : PrintJob,
        job ∈ GetPrintJobs visited <-> exists id, GetPrintJob f id = Some job)
  /\ (forall (status : string) (job : PrintJob),
        job ∈ GetPrintJobsByStatus visited status
        <-> (exists id, GetPrintJob f id = Some job) /\ Status job = status)
  /\ (forall status : string,
        GetPrintJobsByStatus visited status
        = List.filter (fun job => String.eqb (Status job) status) (GetPrintJobs visited)).
Proof.
  intros Hv. split; [|split; [|split]].
  - rewrite GetPrintJobs_values, length_map, Hv. apply length_map_to_list.
  - intros job. rewrite GetPrintJobs_values. by apply visits_elem_of.
  - intros status job. rewrite GetPrintJobsByStatus_filter, GetPrintJobs_values.
    rewrite list_elem_of_In, filter_In, <- list_elem_of_In, (visits_elem_of _ _ _ Hv).
    by rewrite String.eqb_eq.
  - apply GetPrintJobsByStatus_filter.
Qed.

Lemma X7_job_lists_witness :
  length (GetPrintJobs (map_to_list (printJobs Scenario.queued_400)))
  = size (printJobs Scenario.queued_400).
Proof.
  apply (X7_job_lists Scenario.queued_400 (map_to_list (printJobs Scenario.queued_400))).
  apply Permutation_refl.
Defined.

Lemma filter_four_statuses (jobs : list PrintJob) :
  Forall (fun job => IsValidPrintJobStatus (Status job) = true) jobs ->
  length jobs
  = (length (List.filter (fun job => String.eqb (Status job) "Queued") jobs)
     + length (List.filter (fun job => String.eqb (Status job) "Running") jobs)
     + length (List.filter (fun job => String.eqb (Status job) "Done") jobs)
     + length (List.filter (fun job => String.eqb (Status job) "Canceled") jobs))%nat.
Proof.
  induction 1 as [|job jobs Hjob _ IH]; [done|]. cbn [List.filter length]. rewrite IH.
  unfold IsValidPrintJobStatus in Hjob. cbn in Hjob.
  destruct (String.eqb_spec (Status job) "Queued") as [He|].
  { rewrite He. cbn. lia. }
  destruct (String.eqb_spec (Status job) "Running") as [He|].
  { rewrite He. cbn. lia. }
  destruct (String.eqb_spec (Status job) "Done") as [He|].
  { rewrite He. cbn. lia. }
  destruct (String.eqb_spec (Status job) "Canceled") as [He|]; [cbn; lia|].
  discriminate.
Qed.

(** X8.  In every state reached from the empty one and in whatever order
    the loops visit the job map, [GetPrintJobs] lists every stored job
    once, no id twice, and the four lists that [GetPrintJobsByStatus]
    returns for Queued, Running, Done and Canceled hold together as many
    jobs as [GetPrintJobs] does: every job is in exactly one of them. *)
Theorem X8_status_lists_partition (logs : list LogData) (visited : list (string * PrintJob)) :
  visits (printJobs (ApplyAll NewFSM logs)) visited ->
  NoDup (List.map ID (GetPrintJobs visited))
  /\ length (GetPrintJobs visited)
     = (length (GetPrintJobsByStatus visited "Queued")
        + length (GetPrintJobsByStatus visited "Running")
        + length (GetPrintJobsByStatus visited "Done")
        + length (GetPrintJobsByStatus visited "Canceled"))%nat.
Proof.
  intros Hv. split.
  - rewrite GetPrintJobs_values.
    assert (Hids : List.map ID (List.map snd visited) = List.map fst visited).
    { rewrite List.map_map. apply List.map_ext_in. intros [k job] Hin. cbn.
      assert (Hkeyed : Ledger.keyed_by_id (ApplyAll NewFSM logs)).
      { apply (ApplyAll_invariant Ledger.keyed_by_id keyed_by_id_Apply).
        repeat split; intros k' x; cbn; by rewrite lookup_empty. }
      destruct Hkeyed as (_ & _ & Hj). apply Hj, elem_of_map_to_list.
      rewrite <- Hv. by apply list_elem_of_In. }
    rewrite Hids. unfold visits in Hv. rewrite Hv. apply NoDup_fst_map_to_list.
  - rewrite !GetPrintJobsByStatus_filter. apply filter_four_statuses.
    rewrite GetPrintJobs_values. apply Forall_forall. intros job Hin.
    apply (visits_elem_of _ _ _ Hv) in Hin as [id Hid]. revert id job Hid.
    change (Spec.statuses_valid (ApplyAll NewFSM logs)).
    apply (ApplyAll_invariant Spec.statuses_valid statuses_valid_Apply).
    intros id job. cbn. by rewrite lookup_empty.
Qed.

Lemma X8_status_lists_partition_witness :
  NoDup (List.map ID
           (GetPrintJobs (map_to_list (printJobs (ApplyAll NewFSM Scenario.accounting_log)))))
  /\ length (GetPrintJobs (map_to_list (printJobs (ApplyAll NewFSM Scenario.accounting_log))))
     = (length (GetPrintJobsByStatus
                  (map_to_list (printJobs (ApplyAll NewFSM Scenario.accounting_log))) "Queued")
        + length (GetPrintJobsByStatus
                    (map_to_list (printJobs (ApplyAll NewFSM Scenario.accounting_log))) "Running")
        + length (GetPrintJobsByStatus
                    (map_to_list (printJobs (ApplyAll NewFSM Scenario.accounting_log))) "Done")
        + length (GetPrintJobsByStatus
                    (map_to_list (printJobs (ApplyAll NewFSM Scenario.accounting_log)))
                    "Canceled"))%nat.
Proof.
  apply (X8_status_lists_partition Scenario.accounting_log
           (map_to_list (printJobs (ApplyAll NewFSM Scenario.accounting_log)))).
  apply Permutation_refl.
Defined.

End ReadsProofs.

Section ParentLists.
Import Models FSM Reads.

Lemma GetPrinters_values (visited : list (string * Printer)) :
  GetPrinters visited = List.map snd visited.
Proof. unfold GetPrinters. by rewrite (snoc_loop snd). Qed.

Lemma GetFilaments_values (visited : list (string * Filament)) :
  GetFilaments visited = List.map snd visited.
Proof. unfold GetFilaments. by rewrite (snoc_loop snd). Qed.

Lemma visits_keys {V : Type} (key : V -> string) (m : gmap string V)
    (visited : list (string * V)) :
  (forall k x, m !! k = Some x -> key x = k) ->
  visits m visited ->
  NoDup (List.map key (List.map snd visited))
  /\ forall x : V, x ∈ List.map snd visited <-> m !! key x = Some x.
Proof.
  intros Hkey Hv. split.
  - assert (Hids : List.map key (List.map snd visited) = List.map fst visited).
    { rewrite List.map_map. apply List.map_ext_in. intros [k x] Hin. cbn.
      apply Hkey, elem_of_map_to_list. rewrite <- Hv. by apply list_elem_of_In. }
    rewrite Hids. unfold visits in Hv. rewrite Hv. apply NoDup_fst_map_to_list.
  - intros x. rewrite (visits_elem_of _ _ _ Hv). split; [|eauto].
    intros [id Hid]. by rewrite (Hkey _ _ Hid).
Qed.

(** X23.  In every state reached from the empty one and in whatever order
    the loops visit the maps: [GetPrinters] and [GetFilaments] list every
    stored printer and filament once, no id twice; a printer or filament is
    listed exactly when it is the one stored under its id; and for every
    stored print job, of whatever status, the printer and the filament that
    it names are among those listed. *)
Theorem X23_listed_parents
    (logs : list LogData) (ps : list (string * Printer)) (fs : list (string * Filament)) :
  let f := ApplyAll NewFSM logs in
  visits (printers f) ps -> visits (filaments f) fs ->
  NoDup (List.map Printer_ID (GetPrinters ps))
  /\ NoDup (List.map Filament_ID (GetFilaments fs))
  /\ length (GetPrinters ps) = size (printers f)
  /\ length (GetFilaments fs) = size (filaments f)
  /\ (forall p : Printer, p ∈ GetPrinters ps <-> printers f !! Printer_ID p = Some p)
  /\ (forall fl : Filament, fl ∈ GetFilaments fs <-> filaments f !! Filament_ID fl = Some fl)
  /\ (forall (id : string) (job : PrintJob),
        GetPrintJob f id = Some job ->
        (exists p : Printer, p ∈ GetPrinters ps /\ Printer_ID p = PrinterID job)
        /\ (exists fl : Filament, fl ∈ GetFilaments fs /\ Filament_ID fl = FilamentID job)).
Proof.
  intros f Hps Hfs. rewrite GetPrinters_values, GetFilaments_values.
  assert (Hkeyed : Ledger.keyed_by_id f).
  { apply (ApplyAll_invariant Ledger.keyed_by_id keyed_by_id_Apply).
    repeat split; intros k x; cbn; by rewrite lookup_empty. }
  destruct Hkeyed as (Hkp & Hkf & _).
  destruct (visits_keys Printer_ID _ _ Hkp Hps) as [Hndp Hinp].
  destruct (visits_keys Filament_ID _ _ Hkf Hfs) as [Hndf Hinf].
  repeat split; try done.
  - rewrite length_map. unfold visits in Hps. rewrite Hps. apply length_map_to_list.
  - rewrite length_map. unfold visits in Hfs. rewrite Hfs. apply length_map_to_list.
  - by apply Hinp.
  - by apply Hinp.
  - by apply Hinf.
  - by apply Hinf.
  - revert id job H.
    cut (forall id job, printJobs f !! id = Some job -> is_Some (printers f !! PrinterID job)).
    { intros Hpar id job Hjob. destruct (Hpar id job Hjob) as [p Hp].
      exists p. rewrite Hinp, (Hkp _ _ Hp). done. }
    apply (ApplyAll_invariant
             (fun f => forall id job, printJobs f !! id = Some job ->
                                      is_Some (printers f !! PrinterID job))
             printers_exist_Apply).
    intros id job. cbn. by rewrite lookup_empty.
  - destruct (filaments_exist_reachable logs id job H) as [fl Hfl].
    exists fl. rewrite Hinf, (Hkf _ _ Hfl). done.
Qed.

Lemma X23_listed_parents_witness :
  length (GetPrinters (map_to_list (printers (ApplyAll NewFSM Scenario.accounting_log))))
  = size (printers (ApplyAll NewFSM Scenario.accounting_log)).
Proof.
  apply (X23_listed_parents Scenario.accounting_log
           (map_to_list (printers (ApplyAll NewFSM Scenario.accounting_log)))
           (map_to_list (filaments (ApplyAll NewFSM Scenario.accounting_log))));
    apply Permutation_refl.
Defined.

End ParentLists.

(** * Persist and Restore, whatever the document *)

Section RestoreMore.
Import Models FSM.

Variable encode_printers : gmap string Printer -> Json.Value.
Variable decode_printers : Json.Value -> option (gmap string Printer).
Variable encode_filaments : gmap string Filament -> Json.Value.
Variable decode_filaments : Json.Value -> option (gmap string Filament).
Variable encode_printJobs : gmap string PrintJob -> Json.Value.
Variable decode_printJobs : Json.Value -> option (gmap string PrintJob).

(** X9.  What [Restore] does depends on the kind of the document only.
    Bytes that are not JSON and documents that are neither an object nor
    [null] are answered with an error and leave the state as it was.  Every
    object, whatever its members, and [null] are accepted, and the state
    afterwards has no printer, no filament and no job: nothing of the
    document is ever read into the state. *)
Theorem X9_restore_reads_nothing (f : FSM) :
  let restore :=
    Restore encode_printers decode_printers encode_filaments decode_filaments
      encode_printJobs decode_printJobs in
  (forall err : string, restore f (NotJSON err) = (f, Some err))
  /\ (forall members : list (string * Json.Value),
        restore f (Document (Json.Object members)) = (NewFSM, None))
  /\ restore f (Document Json.Null) = (NewFSM, None)
  /\ (forall doc : Json.Value,
        (forall members, doc <> Json.Object members) -> doc <> Json.Null ->
        fst (restore f (Document doc)) = f /\ snd (restore f (Document doc)) <> None).
Proof.
  cbn zeta. split; [done|]. split; [|split; [done|]].
  - intros members. unfold Restore.
    rewrite (Unmarshal_fsmSnapshot encode_printers decode_printers encode_filaments
               decode_filaments encode_printJobs decode_printJobs).
    reflexivity.
  - intros doc Hobj Hnull. destruct doc; try done.
    by destruct (Hobj members).
Qed.

(** X10.  What [Persist] writes does not depend on the snapshot: two
    snapshots leave the same sink behind and get the same answer.  And the
    answer is an error exactly when the sink refuses the write or the
    close, in which case the sink is cancelled. *)
Theorem X10_persist_ignores_the_snapshot (s1 s2 : fsmSnapshot) (sink : SnapshotSink) :
  let persist :=
    Persist encode_printers decode_printers encode_filaments decode_filaments
      encode_printJobs decode_printJobs in
  persist s1 sink = persist s2 sink
  /\ (snd (persist s1 sink) = None <-> write_error sink = None /\ close_error sink = None)
  /\ (snd (persist s1 sink) <> None -> cancelled (fst (persist s1 sink)) = true).
Proof.
  cbn zeta. unfold Persist. cbn.
  destruct (write_error sink), (close_error sink); cbn; repeat split; try done;
    intros []; done.
Qed.

End RestoreMore.

(** * The rest of the key-value store *)

Section DirectoryOrder.
Import Store StoreMore.

Lemma compare_Lt_trans (a b c : string) :
  String.compare a b = Lt -> String.compare b c = Lt -> String.compare a c = Lt.
Proof.
  intros Hab Hbc. apply OrderedTypeEx.String_as_OT.cmp_lt.
  apply (OrderedTypeEx.String_as_OT.lt_trans a b c);
    by apply OrderedTypeEx.String_as_OT.cmp_lt.
Qed.

Lemma compare_Lt_ne (a b : string) : String.compare a b = Lt -> a <> b.
Proof.
  intros Hab ->. pose proof (String.compare_antisym b b) as H. rewrite Hab in H. discriminate.
Qed.

Lemma compare_Gt_Lt (a b : string) : String.compare a b = Gt -> String.compare b a = Lt.
Proof. intros Hab. rewrite String.compare_antisym, Hab. reflexivity. Qed.

Lemma names_write_file (name content : string) (d : Dir) (P : string -> Prop) :
  P name -> Forall P (List.map fst d) -> Forall P (List.map fst (write_file name content d)).
Proof.
  intros Hn. induction d as [|[n c] d IH]; cbn; intros Hd.
  - by constructor.
  - apply Forall_cons in Hd as [Hn' Hd].
    destruct (String.compare name n); cbn; repeat constructor; auto.
Qed.


Lemma ascending_write_file (name content : string) (d : Dir) :
  ascending d -> ascending (write_file name content d).
Proof.
  unfold ascending. induction d as [|[n c] d IH]; cbn; intros Hd.
  - repeat constructor.
  - apply StronglySorted_inv in Hd as [Hd Hn].
    destruct (String.compare name n) eqn:Hc; cbn.
    + apply String.compare_eq_iff in Hc. subst n. by constructor.
    + constructor; [by constructor|]. constructor; [done|].
      eapply Forall_impl; [exact Hn|]. intros x Hx. by eapply compare_Lt_trans.
    + constructor; [by apply IH|]. apply names_write_file; [|done].
      by apply compare_Gt_Lt.
Qed.





Lemma ascending_NoDup (d : Dir) : ascending d -> NoDup (List.map fst d).
Proof.
  unfold ascending. induction 1 as [|n names _ IH Hn]; constructor; [|done].
  intros Hin. rewrite Forall_forall in Hn. by apply Hn, compare_Lt_ne in Hin.
Qed.

Lemma read_file_Some_iff (name : string) (d : Dir) :
  name ∈ List.map fst d <-> exists content, read_file name d = Some content.
Proof.
  split.
  - induction d as [|[n c] d IH]; cbn; [by intros ?%elem_of_nil|].
    destruct (String.eqb_spec n name); [eauto|].
    intros [?|?]%elem_of_cons; [congruence|auto].
  - intros [content H]. by eapply read_file_elem_of.
Qed.

End DirectoryOrder.

Section StoreKeys.
Import Store StoreMore.

Local Ltac fields := cbn [path disk inMemory set_disk set_inMemory NewStore fst snd].





(** X13.  [Keys] lists what [Get] finds.  In whatever order the loop visits
    the map in memory, and for the names of an ascending directory on disk:
    a key is listed exactly when [Get] returns a value for it, and no key
    is listed twice. *)
Theorem X13_keys_are_the_stored_keys (s : Store) (visited : list (string * string)) :
  Reads.visits (inMemory s) visited ->
  (path s <> "" -> ascending (disk s)) ->
  NoDup (Keys s visited)
  /\ (forall key : string,
        (path s <> "" -> entry_name key = true) ->
        key ∈ Keys s visited <-> exists val, Get s key = Some (inl val)).
Proof.
  intros Hv Hasc. unfold Keys, Get. destruct (String.eqb_spec (path s) "") as [Hp|Hp].
  - rewrite (snoc_loop fst). cbn [app]. unfold Reads.visits in Hv. split.
    + rewrite Hv. apply NoDup_fst_map_to_list.
    + intros key _. rewrite list_elem_of_In, in_map_iff. split.
      * intros ([k v] & <- & Hin). exists v. cbn [fst].
        apply list_elem_of_In in Hin. rewrite Hv in Hin.
        apply elem_of_map_to_list in Hin. by rewrite Hin.
      * intros [val Hget]. destruct (inMemory s !! key) as [v|] eqn:Hk; [|discriminate].
        exists (key, v). split; [done|]. apply list_elem_of_In. rewrite Hv.
        by apply elem_of_map_to_list.
  - rewrite (snoc_loop fst). cbn [app]. split.
    + by apply ascending_NoDup, Hasc.
    + intros key Hkey. rewrite (Hkey Hp), read_file_Some_iff. split.
      * intros [content ->]. eauto.
      * intros [val Hget]. destruct (read_file key (disk s)); [eauto|discriminate].
Qed.

Lemma X13_keys_are_the_stored_keys_witness :
  NoDup (Keys (NewStore "data/node1/store" [("a", "1"); ("b", "2")]) []).
Proof.
  refine (proj1 (X13_keys_are_the_stored_keys
                   (NewStore "data/node1/store" [("a", "1"); ("b", "2")]) [] _ _)).
  - unfold Reads.visits. cbn. by rewrite map_to_list_empty.
  - intros _. unfold ascending. cbn. repeat constructor.
Defined.

End StoreKeys.

Section StoreRestore.
Import Store StoreMore.

Local Ltac fields := cbn [path disk inMemory set_disk set_inMemory NewStore fst snd].


Lemma ascending_written (l : list (string * string)) (acc : Dir) :
  ascending acc ->
  ascending (foldl (fun d entry => write_file (fst entry) (snd entry) d) acc l).
Proof.
  revert acc. induction l as [|[k v] l IH]; intros acc Hacc; cbn [foldl]; [done|].
  by apply IH, ascending_write_file.
Qed.



End StoreRestore.

Section StoreBackup.
Import Store StoreMore.

Local Ltac fields := cbn [path disk inMemory set_disk set_inMemory NewStore fst snd].






End StoreBackup.

Section LatestSnapshot.
Import Store StoreMore.

Lemma latest_snapshot_time (acc : string * Z) (file : string) :
  latest acc file
  = match snapshot_time file with
    | Some timestamp => if snd acc <? timestamp then (file, timestamp) else acc
    | None => acc
    end.
Proof.
  destruct acc as [name time]. unfold latest, snapshot_time. cbn [snd].
  destruct (_ && _); [|done]. by destruct (Go.scan_int64 _).
Qed.

(** The loop of [LoadSnapshot]: it ends on the accumulator it started
    with, or on a file whose time is later; no file has a time later than
    the one it ends on. *)
Lemma latest_loop_max (files : list string) (acc : string * Z) :
  let result := foldl latest acc files in
  snd acc <= snd result
  /\ (forall file t, file ∈ files -> snapshot_time file = Some t -> t <= snd result)
  /\ (result = acc
      \/ (fst result ∈ files /\ snapshot_time (fst result) = Some (snd result)
          /\ snd acc < snd result)).
Proof.
  revert acc. induction files as [|file files IH]; intros acc; cbn [foldl].
  - cbn zeta. split; [lia|]. split; [by intros ? ? ?%elem_of_nil|]. by left.
  - specialize (IH (latest acc file)). cbn zeta in *. revert IH.
    rewrite latest_snapshot_time.
    destruct (snapshot_time file) as [t|] eqn:Ht.
    + destruct (Z.ltb_spec (snd acc) t) as [Hlt|Hge]; cbn [fst snd];
        intros (Hle & Hmax & Hres).
      * split; [lia|]. split.
        { intros file' t' [->|Hin]%elem_of_cons Ht'; [|by eapply Hmax].
          rewrite Ht in Ht'. injection Ht' as <-. lia. }
        right. destruct Hres as [->|(Hin & Htime & Hlt')].
        { cbn. split; [by left|]. split; [done|lia]. }
        split; [by right|]. split; [done|lia].
      * split; [lia|]. split.
        { intros file' t' [->|Hin]%elem_of_cons Ht'; [|by eapply Hmax].
          rewrite Ht in Ht'. injection Ht' as <-. lia. }
        destruct Hres as [->|(Hin & Htime & Hlt')]; [by left|].
        right. split; [by right|]. done.
    + intros (Hle & Hmax & Hres). split; [lia|]. split.
      { intros file' t' [->|Hin]%elem_of_cons Ht'; [congruence|by eapply Hmax]. }
      destruct Hres as [->|(Hin & Htime & Hlt')]; [by left|].
      right. split; [by right|]. done.
Qed.

Lemma snapshot_time_not_empty (file : string) (t : Z) :
  snapshot_time file = Some t -> String.eqb file "" = false.
Proof. destruct file; [discriminate|done]. Qed.

(** X15.  [LoadSnapshot] on disk, whatever the directory holds: it fails
    with [os.ErrNotExist] exactly when no file name of the directory reads
    as a snapshot of a positive time, and what it returns otherwise is the
    content of a file whose name reads as a positive time that no other
    file name of the directory exceeds. *)
Theorem X15_load_snapshot_returns_a_latest_file (s : Store) :
  path s <> "" ->
  (LoadSnapshot s = inr ErrNotExist
   <-> forall file t, file ∈ List.map fst (disk s) -> snapshot_time file = Some t -> t <= 0)
  /\ (forall data : string,
        LoadSnapshot s = inl data ->
        exists (file : string) (t : Z),
          read_file file (disk s) = Some data
          /\ snapshot_time file = Some t /\ 0 < t
          /\ forall file' t', file' ∈ List.map fst (disk s) ->
                              snapshot_time file' = Some t' -> t' <= t).
Proof.
  intros Hp%String.eqb_neq. unfold LoadSnapshot. rewrite Hp.
  destruct (latest_loop_max (List.map fst (disk s)) ("", 0)) as (_ & Hmax & Hres).
  destruct (foldl latest ("", 0) (List.map fst (disk s))) as [name time].
  cbn [fst snd] in *. destruct Hres as [[= -> ->]|(Hin & Htime & Hpos)].
  - cbn. split; [split; [intros _; exact Hmax|done]|]. discriminate.
  - rewrite (snapshot_time_not_empty _ _ Htime).
    apply read_file_Some_iff in Hin as [content Hread]. rewrite Hread. split.
    + split; [discriminate|]. intros Hall.
      apply read_file_elem_of in Hread. specialize (Hall _ _ Hread Htime). lia.
    + intros data [= <-]. exists name, time. auto.
Qed.

Lemma X15_load_snapshot_returns_a_latest_file_witness :
  LoadSnapshot (NewStore "data/node1/store" [("raft_state", "{}"); ("snapshot-x", "?")])
  = inr ErrNotExist.
Proof.
  refine (proj2 (proj1 (X15_load_snapshot_returns_a_latest_file
            (NewStore "data/node1/store" [("raft_state", "{}"); ("snapshot-x", "?")]) _)) _).
  - discriminate.
  - intros file t Hin. cbn in Hin.
    apply elem_of_cons in Hin as [->|Hin]; [discriminate|].
    apply elem_of_cons in Hin as [->|Hin]; [discriminate|]. by apply elem_of_nil in Hin.
Defined.

End LatestSnapshot.

Section RaftState.
Import Store StoreMore.

Variable Configuration : Type.
Variable empty : Configuration.
Variable Marshal : Configuration -> string.
Variable Unmarshal : string -> option Configuration.

Lemma Get_after_Set (s s' : Store) (key val : string) (err : option Error) :
  Set_ s key val = Some (s', err) -> err = None /\ Get s' key = Some (inl val).
Proof.
  unfold Set_, Get. destruct (String.eqb (path s) "") eqn:Hp.
  - intros [= <- <-]. cbn [path inMemory set_inMemory]. by rewrite Hp, lookup_insert_eq.
  - destruct (entry_name key) eqn:Hkey; [|discriminate]. intros [= <- <-].
    cbn [path disk set_disk]. by rewrite Hp, ?Hkey, read_file_write_file, String.eqb_refl.
Qed.

(** X16.  [LoadState] and [PersistState] answer alike in memory and on
    disk.  On a store that holds no [raft_state], of either mode,
    [LoadState] returns the empty configuration and no error: the two
    not-found errors of [Get] are told by [os.IsNotExist], not compared.
    After [PersistState], which returns no error, [LoadState] returns what
    the JSON decoder makes of the text written: the configuration that was
    persisted whenever the decoder reads back what the encoder wrote. *)
Theorem X16_load_state_after_persist_state (s : Store) :
  ((forall val, Get s "raft_state" <> Some (inl val)) ->
   LoadState Configuration empty Unmarshal s = Some (empty, None))
  /\ (forall (state : Configuration) (s' : Store) (err : option Error),
        PersistState Configuration Marshal s state = Some (s', err) ->
        err = None
        /\ (Unmarshal (Marshal state) = Some state ->
            LoadState Configuration empty Unmarshal s' = Some (state, None))
        /\ (Unmarshal (Marshal state) = None ->
            LoadState Configuration empty Unmarshal s'
            = Some (empty, Some (UnmarshalError))))
  /\ LoadState Configuration empty Unmarshal (NewStore "" []) = Some (empty, None)
  /\ (forall dir : string,
        LoadState Configuration empty Unmarshal (NewStore dir []) = Some (empty, None)).
Proof.
  split; [|split; [|split]].
  - intros Hmiss. unfold LoadState, Get in *.
    destruct (String.eqb (path s) "").
    + destruct (inMemory s !! "raft_state") as [val|]; [by destruct (Hmiss val)|done].
    + cbn in *. destruct (read_file "raft_state" (disk s)) as [val|]; [by destruct (Hmiss val)|done].
  - intros state s' err Hset. unfold PersistState in Hset.
    destruct (Get_after_Set s s' "raft_state" (Marshal state) err Hset) as [-> Hget].
    unfold LoadState. rewrite Hget. split; [done|]. split; intros ->; done.
  - reflexivity.
  - intros dir. unfold LoadState, Get. cbn. by destruct (String.eqb dir "").
Qed.

End RaftState.

(** * Membership *)

Section MembershipProofs.
Import Transport Membership.

Variable Marshal : list (string * string) -> string.
Variable request_error : string -> string -> option string.

(** X17.  [JoinCluster] and [LeaveCluster] never send what they are given.
    On the leader they return no error without touching the network.  On
    any node, the outcome of [JoinCluster] is the same for every node id
    and node address, and the outcome of [LeaveCluster] the same for every
    node id: a request that is sent has the method POST and an empty
    body. *)
Theorem X17_join_and_leave_send_no_body (node : Node) :
  (Leader node = true ->
   forall nodeID nodeAddr : string,
     JoinCluster Marshal request_error node nodeID nodeAddr = Return None None
     /\ LeaveCluster Marshal request_error node nodeID = Return None None)
  /\ (forall nodeID nodeAddr nodeID' nodeAddr' : string,
        JoinCluster Marshal request_error node nodeID nodeAddr
        = JoinCluster Marshal request_error node nodeID' nodeAddr')
  /\ (forall nodeID nodeID' : string,
        LeaveCluster Marshal request_error node nodeID
        = LeaveCluster Marshal request_error node nodeID')
  /\ (forall (nodeID nodeAddr : string) (req : Request),
        req ∈ network_calls (JoinCluster Marshal request_error node nodeID nodeAddr)
        \/ req ∈ network_calls (LeaveCluster Marshal request_error node nodeID) ->
        Method req = "POST" /\ Body req = "").
Proof.
  unfold JoinCluster, LeaveCluster, ForwardToLeader.
  split; [|split; [|split]].
  - intros ->. done.
  - done.
  - done.
  - intros nodeID nodeAddr req.
    destruct (Leader node); [cbn; by intros [?%elem_of_nil|?%elem_of_nil]|].
    destruct (String.eqb (LeaderAddress node) "");
      [cbn; by intros [?%elem_of_nil|?%elem_of_nil]|].
    destruct (_ <? _)%nat; [cbn; by intros [?%elem_of_nil|?%elem_of_nil]|].
    destruct (Go.scan_int _); [|cbn; by intros [?%elem_of_nil|?%elem_of_nil]].
    cbn zeta. destruct (request_error _ _), (request_error _ _); cbn;
      intros [H|H]; try (by apply elem_of_nil in H);
      apply list_elem_of_singleton in H; by subst req.
Qed.

(** X18.  A request as [JoinCluster] sends it is never granted by the
    handler of [/join].  When the JSON decoder fails on an empty body, the
    handler answers such a request with 409 or 400, never hands a voter to
    [AddVoter], and [JoinCluster] returns the non-success error for that
    answer.  The same holds of [LeaveCluster] and the handler of [/leave]. *)
Theorem X18_forwarded_join_is_never_granted
    (leader : bool) (decode : string -> option (string * string))
    (AddVoter : string -> string -> option string)
    (decode_leave : string -> option string) (RemoveServer : string -> option string)
    (node : Node) (nodeID nodeAddr : string) (req : Request)
    (k : DoResult -> option string * option Error) :
  decode "" = None -> decode_leave "" = None ->
  JoinCluster Marshal request_error node nodeID nodeAddr = ClientDo req k
  \/ LeaveCluster Marshal request_error node nodeID = ClientDo req k ->
  let answer := join_handler leader decode AddVoter (Method req) (Body req) in
  let answer' := leave_handler leader decode_leave RemoveServer (Method req) (Body req) in
  (fst answer = 409 \/ fst answer = 400) /\ snd answer = []
  /\ (fst answer' = 409 \/ fst answer' = 400) /\ snd answer' = []
  /\ (forall resp : Response,
        StatusCode resp = fst answer \/ StatusCode resp = fst answer' ->
        k (DoResponse resp) = (None, Some (NonSuccess (StatusCode resp)))).
Proof.
  intros Hdec Hdec' Hsent.
  assert (Hreq : Method req = "POST" /\ Body req = "" /\
                 k = fun r => (None, snd (receive r))).
  { unfold JoinCluster, LeaveCluster, ForwardToLeader in Hsent.
    destruct (Leader node); [by destruct Hsent|].
    destruct (String.eqb (LeaderAddress node) ""); [by destruct Hsent|].
    destruct (_ <? _)%nat; [by destruct Hsent|].
    destruct (Go.scan_int _); [|by destruct Hsent].
    cbn zeta in Hsent.
    destruct (request_error _ _), (request_error _ _); cbn in Hsent;
      destruct Hsent as [Hs|Hs]; try discriminate; by injection Hs as <- <-. }
  destruct Hreq as (Hm & Hb & ->). cbn zeta. unfold join_handler, leave_handler.
  rewrite Hm, Hb, Hdec, Hdec'. cbn [String.eqb Ascii.eqb Bool.eqb negb].
  assert (Hstatus : forall resp : Response,
             StatusCode resp = 409 \/ StatusCode resp = 400 ->
             (None, snd (receive (DoResponse resp)))
             = (None : option string, Some (NonSuccess (StatusCode resp)))).
  { intros resp [Hs|Hs]; unfold receive; rewrite Hs; reflexivity. }
  destruct leader; cbn; (split; [auto|]); (split; [done|]); (split; [auto|]);
    (split; [done|]); intros resp [Hs|Hs]; apply Hstatus; auto.
Qed.

End MembershipProofs.

Lemma X17_join_and_leave_send_no_body_witness :
  Membership.JoinCluster (fun _ => "{}") (fun _ _ => None)
    {| Transport.Leader := true; Transport.LeaderAddress := "localhost:7000" |}
    "node2" "localhost:7001"
  = Transport.Return None None
  /\ Membership.LeaveCluster (fun _ => "{}") (fun _ _ => None)
       {| Transport.Leader := true; Transport.LeaderAddress := "localhost:7000" |} "node2"
     = Transport.Return None None.
Proof.
  exact (proj1 (X17_join_and_leave_send_no_body (fun _ => "{}") (fun _ _ => None)
                  {| Transport.Leader := true; Transport.LeaderAddress := "localhost:7000" |})
           eq_refl "node2" "localhost:7001").
Defined.

Lemma X18_forwarded_join_is_never_granted_witness :
  fst (Membership.join_handler true (fun body => if String.eqb body "" then None else Some ("n", "a"))
         (fun _ _ => None) "POST" "") = 409
  \/ fst (Membership.join_handler true
            (fun body => if String.eqb body "" then None else Some ("n", "a"))
            (fun _ _ => None) "POST" "") = 400.
Proof.
  refine (proj1 (X18_forwarded_join_is_never_granted (fun _ => "{}") (fun _ _ => None) true
            (fun body => if String.eqb body "" then None else Some ("n", "a")) (fun _ _ => None)
            (fun body => if String.eqb body "" then None else Some "n") (fun _ => None)
            {| Transport.Leader := false; Transport.LeaderAddress := "localhost:7000" |}
            "node2" "localhost:7001"
            {| Transport.Method := "POST"; Transport.URL := "http://localhost:8000/join";
               Transport.ContentType := Some "application/json"; Transport.Body := "" |}
            (fun r => (None, snd (Transport.receive r)))
            eq_refl eq_refl (or_introl eq_refl))).
Defined.

(** * After the network call *)

Section Receive.
Import Transport.

(** X19.  The pair of [nil]s, which [ForwardToLeader] returns on the leader
    for "handle the request here", is also what it returns on a follower
    whose request the leader answered with 200 or 201 and a content length
    that is not positive.  Every other status is returned as the
    non-success error of that status, and an error of the client as it
    is. *)
Theorem X19_forwarded_success_looks_like_local
    (request_error : string -> string -> option string) (leader : Node)
    (method path : string) (body : option string) :
  Leader leader = true ->
  (forall resp : Response,
      StatusCode resp = 200 \/ StatusCode resp = 201 -> ContentLength resp <= 0 ->
      Return (fst (receive (DoResponse resp))) (snd (receive (DoResponse resp)))
      = ForwardToLeader request_error leader method path body)
  /\ (forall resp : Response,
        StatusCode resp <> 200 -> StatusCode resp <> 201 ->
        receive (DoResponse resp) = (None, Some (NonSuccess (StatusCode resp))))
  /\ (forall err : string, receive (DoError err) = (None, Some (ClientError err))).
Proof.
  intros Hl. unfold ForwardToLeader. rewrite Hl. split; [|split; [|done]].
  - intros resp Hs Hlen. unfold receive.
    destruct (Z.ltb_spec 0 (ContentLength resp)); [lia|].
    by destruct Hs as [-> | ->].
  - intros resp H200 H201. unfold receive.
    destruct (Z.eqb_spec (StatusCode resp) 200); [done|].
    by destruct (Z.eqb_spec (StatusCode resp) 201).
Qed.

End Receive.

Lemma X19_forwarded_success_looks_like_local_witness :
  Transport.receive
    (Transport.DoResponse
       {| Transport.StatusCode := 404; Transport.ContentLength := 19;
          Transport.Read := fun _ => ("404 page not found", None) |})
  = (None, Some (Transport.NonSuccess 404)).
Proof.
  refine (proj1 (proj2 (X19_forwarded_success_looks_like_local (fun _ _ => None)
            {| Transport.Leader := true; Transport.LeaderAddress := "" |} "POST" "/join" None
            eq_refl))
            {| Transport.StatusCode := 404; Transport.ContentLength := 19;
               Transport.Read := fun _ => ("404 page not found", None) |} _ _);
    discriminate.
Defined.

(** * The command line and the bootstrap *)

Section ConfigProofs.
Import Config.

Lemma Split_not_nil (s : string) : Split s <> [].
Proof.
  induction s as [|c s IH]; cbn; [done|].
  destruct (Ascii.eqb c ","); [done|]. by destruct (Split s).
Qed.

Lemma Join_Split (s : string) : Join (Split s) = s.
Proof.
  induction s as [|c s IH]; [done|]. cbn [Split].
  destruct (Ascii.eqb_spec c ",") as [->|Hc].
  - pose proof (Split_not_nil s). cbn [Join]. destruct (Split s) as [|p ps]; [done|].
    cbn in *. by rewrite IH.
  - pose proof (Split_not_nil s). destruct (Split s) as [|p ps]; [done|].
    destruct ps as [|q qs]; cbn in *; by rewrite <- IH.
Qed.

Lemma Split_pieces (s : string) :
  Forall (fun piece => has_comma piece = false) (Split s)
  /\ length (Split s) = S (commas s).
Proof.
  induction s as [|c s [IH1 IH2]]; cbn [Split commas].
  - split; [by repeat constructor|done].
  - destruct (Ascii.eqb c ",") eqn:Hc.
    + split; [by constructor|]. cbn. by rewrite IH2.
    + pose proof (Split_not_nil s). destruct (Split s) as [|p ps]; [done|].
      apply Forall_cons in IH1 as [Hp Hps]. split; [|exact IH2].
      constructor; [|done]. cbn. by rewrite Hc.
Qed.

(** X20.  [ParseFlags] returns a configuration exactly when the id, the
    Raft address, the Raft directory and the HTTP address are all given,
    and carries them over as they are.  The peers are what lies between
    the commas of the [-peers] flag: joined by commas they give the flag
    back, none of them holds a comma, and there is one more of them than
    there are commas; a flag that is empty gives no peer at all. *)
Theorem X20_parse_flags (flags : Flags) :
  ((exists config, ParseFlags flags = inr config)
   <-> flag_id flags <> "" /\ flag_raft_addr flags <> "" /\ flag_raft_dir flags <> ""
       /\ flag_http_addr flags <> "")
  /\ (forall config : Config,
        ParseFlags flags = inr config ->
        NodeID config = flag_id flags /\ RaftAddr config = flag_raft_addr flags
        /\ RaftDir config = flag_raft_dir flags /\ HTTPAddr config = flag_http_addr flags
        /\ Join (Peers config) = flag_peers flags
        /\ Forall (fun peer => has_comma peer = false) (Peers config)
        /\ (flag_peers flags = "" -> Peers config = [])
        /\ (flag_peers flags <> "" ->
            length (Peers config) = S (commas (flag_peers flags)))).
Proof.
  unfold ParseFlags.
  destruct (String.eqb_spec (flag_id flags) "") as [H1|H1];
    [split; [split; [by intros [? [=]]|tauto]|discriminate]|].
  destruct (String.eqb_spec (flag_raft_addr flags) "") as [H2|H2];
    [split; [split; [by intros [? [=]]|tauto]|discriminate]|].
  destruct (String.eqb_spec (flag_raft_dir flags) "") as [H3|H3];
    [split; [split; [by intros [? [=]]|tauto]|discriminate]|].
  destruct (String.eqb_spec (flag_http_addr flags) "") as [H4|H4];
    [split; [split; [by intros [? [=]]|tauto]|discriminate]|].
  split; [split; [done|eauto]|]. intros config [= <-]. cbn.
  destruct (Split_pieces (flag_peers flags)) as [Hp Hl].
  destruct (String.eqb_spec (flag_peers flags) "") as [->|H5]; cbn.
  - repeat split; done.
  - rewrite Join_Split. repeat split; done.
Qed.

Lemma servers_loop (RaftAddr : string) (Peers : list string) (servers : list Server) :
  foldl (fun servers peer =>
           if negb (String.eqb peer RaftAddr)
           then (servers ++ [{| Server_ID := "node-" ++ peer; Server_Address := peer |}])%list
           else servers)
        servers Peers
  = (servers
     ++ List.map (fun peer => {| Server_ID := "node-" ++ peer; Server_Address := peer |})
          (List.filter (fun peer => negb (String.eqb peer RaftAddr)) Peers))%list.
Proof.
  revert servers. induction Peers as [|peer Peers IH]; intros servers; cbn.
  - by rewrite app_nil_r.
  - rewrite IH. destruct (negb (String.eqb peer RaftAddr)); [|done]. cbn.
    by rewrite <- app_assoc.
Qed.

(** X21.  The configuration with which [NewNode] bootstraps lists the node
    itself first, under its own id, and then every peer whose address is
    not the node's, in the order of the peers and as often as it is given:
    the node's own address is listed once, and the id under which a peer
    is listed is [node-] followed by its address, whatever id that peer
    was started with. *)
Theorem X21_bootstrap_servers (NodeID RaftAddr : string) (Peers : list string) :
  let servers := bootstrap_servers NodeID RaftAddr Peers in
  hd_error servers = Some {| Server_ID := NodeID; Server_Address := RaftAddr |}
  /\ List.map Server_Address servers
     = RaftAddr :: List.filter (fun peer => negb (String.eqb peer RaftAddr)) Peers
  /\ List.map Server_ID (tl servers)
     = List.map (fun addr => "node-" ++ addr) (List.map Server_Address (tl servers))
  /\ length (List.filter (String.eqb RaftAddr) (List.map Server_Address servers)) = 1%nat.
Proof.
  cbn zeta. unfold bootstrap_servers. rewrite servers_loop. cbn [app hd_error tl List.map].
  rewrite !List.map_map. cbn [Server_Address Server_ID]. rewrite List.map_id.
  split; [done|]. split; [done|]. split; [done|].
  cbn [List.filter]. rewrite String.eqb_refl. cbn [length]. f_equal.
  induction Peers as [|peer Peers IH]; cbn; [done|].
  destruct (String.eqb_spec peer RaftAddr) as [->|Hne]; cbn; [done|].
  destruct (String.eqb_spec RaftAddr peer); [congruence|done].
Qed.

End ConfigProofs.

Lemma X20_parse_flags_witness :
  Config.Join ["localhost:7000"; "localhost:7001"; "localhost:7002"]
  = "localhost:7000,localhost:7001,localhost:7002".
Proof.
  assert (H := proj2 (X20_parse_flags
                {| Config.flag_id := "node1"; Config.flag_raft_addr := "localhost:7000";
                   Config.flag_raft_dir := "data/node1";
                   Config.flag_http_addr := "localhost:8000";
                   Config.flag_bootstrap := true; Config.flag_join := "";
                   Config.flag_peers := "localhost:7000,localhost:7001,localhost:7002" |})
                {| Config.NodeID := "node1"; Config.RaftAddr := "localhost:7000";
                   Config.RaftDir := "data/node1"; Config.HTTPAddr := "localhost:8000";
                   Config.Bootstrap := true; Config.JoinAddr := "";
                   Config.Peers := ["localhost:7000"; "localhost:7001"; "localhost:7002"] |}).
  assert (Hparse : Config.ParseFlags
                {| Config.flag_id := "node1"; Config.flag_raft_addr := "localhost:7000";
                   Config.flag_raft_dir := "data/node1";
                   Config.flag_http_addr := "localhost:8000";
                   Config.flag_bootstrap := true; Config.flag_join := "";
                   Config.flag_peers := "localhost:7000,localhost:7001,localhost:7002" |}
            = inr {| Config.NodeID := "node1"; Config.RaftAddr := "localhost:7000";
                   Config.RaftDir := "data/node1"; Config.HTTPAddr := "localhost:8000";
                   Config.Bootstrap := true; Config.JoinAddr := "";
                   Config.Peers := ["localhost:7000"; "localhost:7001"; "localhost:7002"] |})
    by (vm_compute; reflexivity).
  exact (proj1 (proj2 (proj2 (proj2 (proj2 (H Hparse)))))).
Defined.

Lemma X16_load_state_after_persist_state_witness :
  StoreMore.LoadState string "" Some (Store.NewStore "data/node1/store" []) = Some ("", None).
Proof.
  apply (proj1 (X16_load_state_after_persist_state string "" (fun c => c) Some
                  (Store.NewStore "data/node1/store" []))).
  intros val. discriminate.
Defined.

Lemma X9_restore_reads_nothing_witness :
  fst (FSM.Restore (fun _ => Json.Null) (fun _ => None) (fun _ => Json.Null) (fun _ => None)
         (fun _ => Json.Null) (fun _ => None) Scenario.one_printer
         (FSM.Document (Json.Number 1)))
  = Scenario.one_printer.
Proof.
  apply (proj2 (proj2 (proj2 (X9_restore_reads_nothing (fun _ => Json.Null) (fun _ => None)
           (fun _ => Json.Null) (fun _ => None) (fun _ => Json.Null) (fun _ => None)
           Scenario.one_printer))) (Json.Number 1)); discriminate.
Defined.
